(** * Cuizly: prompt enhancer, website configuration hook, public site fetch

    A shallow embedding of three pieces of the repository:

    - [supabase/functions/generate-image/index.ts]: the edge function
      that enhances a prompt, calls the image API and maps the reply to an
      HTTP response;
    - [src/hooks/useRestaurantWebsite.tsx]: the hook that loads and saves
      the configuration row of a restaurant's website;
    - [src/pages/RestaurantSite.tsx] with the SQL function
      [get_public_website]: the public fetch of a published site.

    JavaScript strings are modelled as [string] (the UTF-8 bytes of the
    text), JavaScript objects as finite maps from property names to values,
    and everything outside the repository (the image API, the hosted table)
    as an oracle whose replies are inputs of the model. *)

From Stdlib Require Import ZArith Ascii String List Bool Lia.
From stdpp Require Import base option list strings pretty gmap fin_maps.

Local Open Scope Z_scope.

(** ** JavaScript strings *)

Module JsString.

(** ASCII letters and their other case. *)
Definition is_upper (c : ascii) : bool :=
  let n := nat_of_ascii c in (65 <=? n)%nat && (n <=? 90)%nat.

Definition is_lower (c : ascii) : bool :=
  let n := nat_of_ascii c in (97 <=? n)%nat && (n <=? 122)%nat.

Definition is_ascii (c : ascii) : bool := (nat_of_ascii c <? 128)%nat.

Definition lower_char (c : ascii) : ascii :=
  if is_upper c then ascii_of_nat (nat_of_ascii c + 32) else c.

Definition upper_char (c : ascii) : ascii :=
  if is_lower c then ascii_of_nat (nat_of_ascii c - 32) else c.

Fixpoint map_chars (f : ascii -> ascii) (s : string) : string :=
  match s with
  | EmptyString => EmptyString
  | String c s' => String (f c) (map_chars f s')
  end.

Fixpoint all_chars (f : ascii -> bool) (s : string) : bool :=
  match s with
  | EmptyString => true
  | String c s' => f c && all_chars f s'
  end.

(** The lower-casing of a text made of ASCII characters only. *)
Definition ascii_lower (s : string) : string := map_chars lower_char s.

(** [String.prototype.startsWith]. *)
Fixpoint startsWith (s pat : string) : bool :=
  match pat, s with
  | EmptyString, _ => true
  | String p pat', String c s' => Ascii.eqb p c && startsWith s' pat'
  | String _ _, EmptyString => false
  end.

(** [pat] occurs in [s] (the test [s.includes(pat)]). *)
Fixpoint occurs_in (pat s : string) : bool :=
  startsWith s pat ||
  match s with
  | EmptyString => false
  | String _ s' => occurs_in pat s'
  end.

(** [s.split(sep)] for a one-character separator: the pieces between
    the occurrences of the separator, never an empty array. *)
Fixpoint split (sep : ascii) (s : string) : list string :=
  match s with
  | EmptyString => [EmptyString]
  | String c s' =>
      if Ascii.eqb c sep then EmptyString :: split sep s'
      else match split sep s' with
           | piece :: rest => String c piece :: rest
           | [] => [String c EmptyString]
           end
  end.

(** What is left of [s] after the first occurrence of [sep], when there
    is one. *)
Fixpoint after_first (sep : ascii) (s : string) : option string :=
  match s with
  | EmptyString => None
  | String c s' => if Ascii.eqb c sep then Some s' else after_first sep s'
  end.

Fixpoint count_char (sep : ascii) (s : string) : nat :=
  match s with
  | EmptyString => 0%nat
  | String c s' => ((if Ascii.eqb c sep then 1 else 0) + count_char sep s')%nat
  end.

End JsString.

(** ** Regular expressions of the shape [/w1|w2|...|wn/i]

    Every pattern of the enhancer is an alternation of literal words with
    the [i] flag and without the [u] flag.  Under that flag two characters
    match when their canonical forms agree; the canonical form of an ASCII
    letter is its upper case, and no character outside ASCII canonicalises
    to an ASCII one. *)

Module Regex.
Import JsString.

Definition canonicalize (c : ascii) : ascii := upper_char c.

(** The literal [pat] matches at the start of [s], ignoring case. *)
Fixpoint match_here (pat s : string) : bool :=
  match pat, s with
  | EmptyString, _ => true
  | String p pat', String c s' =>
      Ascii.eqb (canonicalize p) (canonicalize c) && match_here pat' s'
  | String _ _, EmptyString => false
  end.

(** The literal matches somewhere in [s]. *)
Fixpoint match_anywhere (pat s : string) : bool :=
  match_here pat s ||
  match s with
  | EmptyString => false
  | String _ s' => match_anywhere pat s'
  end.

(** [/w1|...|wn/i.test(s)]. *)
Definition regex_test (alternatives : list string) (s : string) : bool :=
  existsb (fun w => match_anywhere w s) alternatives.

End Regex.

(** ** JSON values

    What [JSON.parse] produces.  A value that is not there ([undefined])
    is [None] of [option json].  Only the truthiness of a number is ever
    observed by the code below, so numbers are kept as integers. *)

#[local] Set Warnings "-register-all".

Inductive json : Type :=
  | JNull
  | JBool (b : bool)
  | JNum (n : Z)
  | JStr (s : string)
  | JArr (items : list json)
  | JObj (fields : list (string * json)).

Module Js.

(** [ToBoolean]. *)
Definition truthy (v : option json) : bool :=
  match v with
  | None | Some JNull => false
  | Some (JBool b) => b
  | Some (JNum n) => negb (n =? 0)
  | Some (JStr s) => negb (String.eqb s "")
  | Some (JArr _) | Some (JObj _) => true
  end.

Fixpoint assoc (k : string) (fields : list (string * json)) : option json :=
  match fields with
  | [] => None
  | (k', v) :: rest => if String.eqb k k' then Some v else assoc k rest
  end.

(** [v.k] for a property name that no prototype defines. *)
Definition get_prop (k : string) (v : json) : option json :=
  match v with
  | JObj fields => assoc k fields
  | _ => None
  end.

(** [v[0]]. *)
Definition get_index0 (v : json) : option json :=
  match v with
  | JArr (x :: _) => Some x
  | JObj fields => assoc "0" fields
  | JStr (String c _) => Some (JStr (String c EmptyString))
  | _ => None
  end.

(** [o?.k] and [o?.[0]]: nothing is read from [null] or [undefined]. *)
Definition opt_chain (f : json -> option json) (o : option json) : option json :=
  match o with
  | None | Some JNull => None
  | Some v => f v
  end.

(** [a || b]. *)
Definition or_else (a : option json) (b : json) : json :=
  match a with
  | Some v => if truthy a then v else b
  | None => b
  end.

(** [v === 'literal']. *)
Definition strict_eq_str (v : json) (literal : string) : bool :=
  match v with
  | JStr s => String.eqb s literal
  | _ => false
  end.

End Js.

(** ** The prompt enhancer ([enhancePrompt], index.ts lines 25-88) *)

Module Enhancer.
Import JsString.

(** The style buckets of the if/else-if chain, in the order of the chain. *)
Inductive style : Type :=
  Artistic | Logo | Render3D | Minimal | Food | Photo | Generic.

Definition artistic_words : list string :=
  ["art"; "painting"; "drawing"; "sketch"; "illustration"; "cartoon";
   "anime"; "watercolor"; "oil painting"; "abstract"].
Definition photo_words : list string :=
  ["photo"; "photograph"; "realistic"; "real"; "portrait"; "landscape";
   "nature"].
Definition food_words : list string :=
  ["food"; "dish"; "meal"; "recipe"; "cuisine"; "restaurant"; "plat";
   "repas"; "nourriture"].
Definition logo_words : list string :=
  ["logo"; "icon"; "brand"; "emblem"; "badge"].
Definition render3d_words : list string :=
  ["3d"; "render"; "cgi"; "digital art"].
Definition minimal_words : list string :=
  ["minimal"; "simple"; "clean"; "flat"].

(** The templates, copied from the two branches of [lang === 'en']. *)
Definition en_template (c : style) : string * string :=
  match c with
  | Artistic =>
      ("Beautiful artistic creation, masterful technique: ",
       ". Rich details, expressive style, museum quality artwork.")
  | Logo =>
      ("Professional logo design, clean vector style: ",
       ". Modern, memorable, scalable design with perfect symmetry.")
  | Render3D =>
      ("High-quality 3D render, cinematic lighting: ",
       ". Octane render quality, realistic materials, dramatic composition.")
  | Minimal =>
      ("Clean minimal design: ",
       ". Simple, elegant, balanced composition with purposeful whitespace.")
  | Food =>
      ("Professional food photography, appetizing presentation: ",
       ". Gourmet styling, perfect lighting, mouth-watering details, 8K quality.")
  | Photo =>
      ("Professional photography, ultra high resolution: ",
       ". Perfect lighting, sharp focus, vivid colors, 8K quality.")
  | Generic =>
      ("High quality, detailed image: ",
       ". Professional quality, vivid colors, excellent composition, 4K resolution.")
  end.

Definition fr_template (c : style) : string * string :=
  match c with
  | Artistic =>
      ("Belle création artistique, technique maîtrisée: ",
       ". Détails riches, style expressif, qualité musée.")
  | Logo =>
      ("Design de logo professionnel, style vectoriel épuré: ",
       ". Moderne, mémorable, design scalable avec symétrie parfaite.")
  | Render3D =>
      ("Rendu 3D haute qualité, éclairage cinématique: ",
       ". Qualité Octane render, matériaux réalistes, composition dramatique.")
  | Minimal =>
      ("Design minimaliste épuré: ",
       ". Simple, élégant, composition équilibrée avec espaces blancs intentionnels.")
  | Food =>
      ("Photographie culinaire professionnelle, présentation appétissante: ",
       ". Style gastronomique, éclairage parfait, détails savoureux, qualité 8K.")
  | Photo =>
      ("Photographie professionnelle, ultra haute résolution: ",
       ". Éclairage parfait, mise au point nette, couleurs vives, qualité 8K.")
  | Generic =>
      ("Image de haute qualité, détaillée: ",
       ". Qualité professionnelle, couleurs vives, excellente composition, résolution 4K.")
  end.

Definition all_styles : list style :=
  [Artistic; Logo; Render3D; Minimal; Food; Photo; Generic].

(** Every prefix and every suffix of one language. *)
Definition template_texts (t : style -> string * string) : list string :=
  flat_map (fun c => [fst (t c); snd (t c)]) all_styles.

(** [lang === 'en'] *)
Definition is_en (lang : json) : bool := Js.strict_eq_str lang "en".

(** [language || 'fr'], the argument the handler passes (line 90). *)
Definition lang_or_default (language : option json) : json :=
  Js.or_else language (JStr "fr").

Section WithRuntime.

(** [String.prototype.toLowerCase] of the runtime.  Its case table for
    the characters outside ASCII is not part of the repository; what
    the proofs use of it is stated where it is used. *)
Variable toLowerCase : string -> string.

(** The six detectors (lines 29-34). *)
Definition isArtistic (userPrompt : string) : bool :=
  Regex.regex_test artistic_words (toLowerCase userPrompt).
Definition isPhoto (userPrompt : string) : bool :=
  Regex.regex_test photo_words (toLowerCase userPrompt).
Definition isFood (userPrompt : string) : bool :=
  Regex.regex_test food_words (toLowerCase userPrompt).
Definition isLogo (userPrompt : string) : bool :=
  Regex.regex_test logo_words (toLowerCase userPrompt).
Definition is3D (userPrompt : string) : bool :=
  Regex.regex_test render3d_words (toLowerCase userPrompt).
Definition isMinimal (userPrompt : string) : bool :=
  Regex.regex_test minimal_words (toLowerCase userPrompt).

(** [enhancePrompt], with the assignments to [stylePrefix] and
    [styleSuffix] of each branch written as the pair they produce. *)
Definition enhancePrompt (userPrompt : string) (lang : json) : string :=
  let '(stylePrefix, styleSuffix) :=
    if is_en lang then
      if isArtistic userPrompt then en_template Artistic
      else if isLogo userPrompt then en_template Logo
      else if is3D userPrompt then en_template Render3D
      else if isMinimal userPrompt then en_template Minimal
      else if isFood userPrompt then en_template Food
      else if isPhoto userPrompt then en_template Photo
      else en_template Generic
    else
      if isArtistic userPrompt then fr_template Artistic
      else if isLogo userPrompt then fr_template Logo
      else if is3D userPrompt then fr_template Render3D
      else if isMinimal userPrompt then fr_template Minimal
      else if isFood userPrompt then fr_template Food
      else if isPhoto userPrompt then fr_template Photo
      else fr_template Generic
  in stylePrefix +:+ userPrompt +:+ styleSuffix.

(** The reading of the specification: an ordered table of (detector,
    style) pairs, the first detector that holds decides, and the
    generic style is the fallback. *)
Definition precedence_table : list ((string -> bool) * style) :=
  [(isArtistic, Artistic); (isLogo, Logo); (is3D, Render3D);
   (isMinimal, Minimal); (isFood, Food); (isPhoto, Photo)].

Fixpoint first_match (table : list ((string -> bool) * style))
    (userPrompt : string) : style :=
  match table with
  | [] => Generic
  | (detect, c) :: rest =>
      if detect userPrompt then c else first_match rest userPrompt
  end.

Definition selected_style (userPrompt : string) : style :=
  first_match precedence_table userPrompt.

Definition template_of (lang : json) : style -> string * string :=
  if is_en lang then en_template else fr_template.

End WithRuntime.

(** A runtime whose input is ASCII text: every letter A-Z becomes a-z and
    nothing else changes. *)
Definition ascii_toLowerCase : string -> string := ascii_lower.

(** What the proofs use of a runtime's [toLowerCase]: a stretch of ASCII
    characters of the input comes out as its ASCII lower-casing, whatever
    surrounds it. *)
Definition lowercases_ascii (toLowerCase : string -> string) : Prop :=
  forall before word after : string,
    all_chars is_ascii word = true ->
    exists before' after' : string,
      toLowerCase (before +:+ word +:+ after)
      = before' +:+ ascii_lower word +:+ after'.

(** The prompt contains a keyword of the pattern [words], spelled in any
    letter case. *)
Definition has_keyword (words : list string) (userPrompt : string) : Prop :=
  exists word spelled before after : string,
    In word words
    /\ all_chars is_ascii spelled = true
    /\ ascii_lower spelled = word
    /\ userPrompt = before +:+ spelled +:+ after.

(** No prefix or suffix of the templates [other] occurs in the style
    text (prefix and suffix) [t]. *)
Definition shares_no_text (other : style -> string * string)
    (t : string * string) : bool :=
  forallb (fun txt => negb (occurs_in txt (fst t)) && negb (occurs_in txt (snd t)))
          (template_texts other).

End Enhancer.

(** ** The edge function ([serve] handler, index.ts lines 9-171) *)

Module EdgeFunction.
Import JsString Enhancer.

(** The request as the handler reads it: its method, and what
    [await req.json()] gives ([None] when the body is not JSON and the
    promise rejects). *)
Record Request : Type := {
  method : string;
  json_body : option json
}.

(** The one outgoing call: a POST to the chat-completions endpoint with
    the bearer key and the enhanced prompt as the user message. *)
Record FetchCall : Type := {
  bearer : string;
  content : string
}.

(** What the image API does with a call: [fetch] rejects, or it resolves
    with a status and a body that is read to its end ([None] when that
    body is not JSON), or it resolves with a status and the body cannot be
    read ([response.text()] and [response.json()] reject). *)
Inductive FetchReply : Type :=
  | NetworkFailure
  | Replied (status : Z) (payload : option json)
  | BodyLost (status : Z).

Record Env : Type := {
  LOVABLE_API_KEY : option string;
  fetch : FetchCall -> FetchReply
}.

(** Exceptions raised by the runtime rather than by a [throw] of the
    source; their message text is the engine's. *)
Inductive engine_fault : Type :=
  | BodyNotJson          (* req.json() rejects *)
  | DestructureNull      (* const { prompt, language } = null *)
  | NoToLowerCase        (* userPrompt.toLowerCase is not a function *)
  | FetchRejected        (* fetch(...) rejects *)
  | BodyNotRead          (* response.text() or response.json() rejects
                            while the body is read *)
  | ReplyNotJson         (* response.json() rejects *)
  | ReadOfNull           (* data.choices with data === null *)
  | NoStartsWith.        (* imageUrl.startsWith is not a function *)

Inductive thrown : Type :=
  | Error (message : string)
  | EngineError (fault : engine_fault).

Inductive message : Type :=
  | Text (s : string)
  | EngineText (fault : engine_fault).

(** [error.message] *)
Definition message_of (e : thrown) : message :=
  match e with
  | Error m => Text m
  | EngineError f => EngineText f
  end.

(** The two shapes of [JSON.stringify]'s argument.  A property whose
    value is [undefined] is left out of the text, hence the option. *)
Inductive ResponseBody : Type :=
  | SuccessBody (imageBase64 : option string)   (* { imageBase64, success: true } *)
  | ErrorBody (error : message).                (* { error, success: false } *)

Record Response : Type := {
  status : Z;
  body : option ResponseBody
}.

Definition success (r : Response) : option bool :=
  match body r with
  | Some (SuccessBody _) => Some true
  | Some (ErrorBody _) => Some false
  | None => None
  end.

(** A computation of the [try] block: it throws or returns, and records
    the calls it made on the way. *)
Definition Exec (A : Type) : Type := (thrown + A) * list FetchCall.

#[export] Instance exec_ret : MRet Exec := fun A a => (inr a, []).
#[export] Instance exec_bind : MBind Exec := fun A B k m =>
  match m with
  | (inl e, calls) => (inl e, calls)
  | (inr a, calls) => let '(r, calls') := k a in (r, calls ++ calls')
  end.
Definition throw {A} (e : thrown) : Exec A := (inl e, []).

(** [await fetch(...)]: the status of the response and its body, [None]
    when it cannot be read. *)
Definition do_fetch (env : Env) (call : FetchCall)
    : Exec (Z * option (option json)) :=
  match fetch env call with
  | NetworkFailure => (inl (EngineError FetchRejected), [call])
  | Replied st payload => (inr (st, Some payload), [call])
  | BodyLost st => (inr (st, None), [call])
  end.
(** Reading the body to its end, as [await response.text()] and
    [await response.json()] both do first. *)
Definition read_body {A} (body : option A) : Exec A :=
  match body with
  | Some b => mret b
  | None => throw (EngineError BodyNotRead)
  end.

(** [response.ok] *)
Definition response_ok (st : Z) : bool := (200 <=? st) && (st <=? 299).

(** [data.choices?.[0]?.message?.images?.[0]?.image_url?.url] for a
    [data] that is not [null]. *)
Definition image_url_of (data : json) : option json :=
  Js.opt_chain (Js.get_prop "url")
    (Js.opt_chain (Js.get_prop "image_url")
      (Js.opt_chain Js.get_index0
        (Js.opt_chain (Js.get_prop "images")
          (Js.opt_chain (Js.get_prop "message")
            (Js.opt_chain Js.get_index0
              (Js.get_prop "choices" data)))))).

(** Lines 141-145: [let imageBase64 = imageUrl; if
    (imageUrl.startsWith('data:')) imageBase64 = imageUrl.split(',')[1]].
    [None] is [undefined]. *)
Definition extract_base64 (imageUrl : string) : option string :=
  if startsWith imageUrl "data:" then split "," imageUrl !! 1%nat
  else Some imageUrl.

Section WithRuntime.
Variable toLowerCase : string -> string.

(** The body of the [try] block. *)
Definition try_block (env : Env) (req : Request) : Exec Response :=
  parsed ← match json_body req with
            | None => throw (EngineError BodyNotJson)
            | Some JNull => throw (EngineError DestructureNull)
            | Some v => mret v
            end;
  let prompt := Js.get_prop "prompt" parsed in
  let language := Js.get_prop "language" parsed in
  key ← match LOVABLE_API_KEY env with
         | Some k => if String.eqb k "" then
                       throw (Error "LOVABLE_API_KEY is not configured")
                     else mret k
         | None => throw (Error "LOVABLE_API_KEY is not configured")
         end;
  enhancedPrompt ← match prompt with
                    | Some (JStr userPrompt) =>
                        mret (enhancePrompt toLowerCase userPrompt
                               (lang_or_default language))
                    | _ => throw (EngineError NoToLowerCase)
                    end;
  '(st, body) ← do_fetch env {| bearer := key; content := enhancedPrompt |};
  if negb (response_ok st) then
    _ ← read_body body;   (* const errorText = await response.text() *)
    if st =? 429 then
      mret {| status := 429;
             body := Some (ErrorBody
               (Text "Rate limit exceeded, please try again later.")) |}
    else if st =? 402 then
      mret {| status := 402;
             body := Some (ErrorBody
               (Text "Payment required, please add credits.")) |}
    else throw (Error ("Lovable AI error: " +:+ pretty st))
  else
    payload ← read_body body;
    data ← match payload with
            | None => throw (EngineError ReplyNotJson)
            | Some JNull => throw (EngineError ReadOfNull)
            | Some d => mret d
            end;
    let imageUrl := image_url_of data in
    if negb (Js.truthy imageUrl) then throw (Error "No image generated")
    else
      match imageUrl with
      | Some (JStr url) =>
          mret {| status := 200;
                 body := Some (SuccessBody (extract_base64 url)) |}
      | _ => throw (EngineError NoStartsWith)
      end.

(** The handler: the preflight answer, or the [try] block with its
    [catch], which turns whatever was thrown into a 500. *)
Definition handler (env : Env) (req : Request) : Response * list FetchCall :=
  if String.eqb (method req) "OPTIONS" then
    ({| status := 200; body := None |}, [])
  else
    match try_block env req with
    | (inr response, calls) => (response, calls)
    | (inl error, calls) =>
        ({| status := 500; body := Some (ErrorBody (message_of error)) |},
         calls)
    end.

End WithRuntime.

(** The value of the [url] field when the reply is examined at all: the
    status is a success status and the body is JSON other than [null]. *)
Definition reply_image_url (r : FetchReply) : option json :=
  match r with
  | Replied st (Some data) =>
      if response_ok st then
        match data with JNull => None | _ => image_url_of data end
      else None
  | _ => None
  end.

(** The shape of a reply that carries an image: the [url] sits at
    [choices[0].message.images[0].image_url.url]. *)
Definition completion_with_image (url : json) : json :=
  JObj [("choices",
         JArr [JObj [("message",
                      JObj [("images",
                             JArr [JObj [("image_url",
                                          JObj [("url", url)])]])])]])].

(** An environment with a key whose API answers every call with status
    200 and the given [url]. *)
Definition env_answering (url : json) : Env :=
  {| LOVABLE_API_KEY := Some "secret";
     fetch := fun _ => Replied 200 (Some (completion_with_image url)) |}.

(** An environment with a key whose API answers every call with the
    given status and a body that cannot be read. *)
Definition env_losing_body (st : Z) : Env :=
  {| LOVABLE_API_KEY := Some "secret"; fetch := fun _ => BodyLost st |}.
Definition post_prompt (prompt : string) : Request :=
  {| method := "POST"; json_body := Some (JObj [("prompt", JStr prompt)]) |}.

(** The credential is there: [!LOVABLE_API_KEY] is false. *)
Definition key_present (env : Env) : bool :=
  match LOVABLE_API_KEY env with
  | Some k => negb (String.eqb k "")
  | None => false
  end.

End EdgeFunction.

(** ** Objects of the configuration table

    A [WebsiteConfig], a partial update and a row returned by the store are
    JavaScript objects: finite maps from property names to values.  The
    spread [{ ...a, ...b }] is the union that prefers [b]. *)

Inductive value : Type :=
  | VUndefined
  | VNull
  | VBool (b : bool)
  | VStr (s : string)
  | VList (items : list string).

Module WebsiteHook.

(** [ToBoolean] of a property read; a missing property reads as
    [undefined]. *)
Definition truthy (v : option value) : bool :=
  match v with
  | None | Some VUndefined | Some VNull => false
  | Some (VBool b) => b
  | Some (VStr s) => negb (String.eqb s "")
  | Some (VList _) => true
  end.

(** [{ ...a, ...b }] *)
Definition spread (a b : gmap string value) : gmap string value := b ∪ a.

(** [o.k] as a value: [undefined] when the property is missing. *)
Definition read (o : gmap string value) (k : string) : value :=
  default VUndefined (o !! k).

(** [defaultConfig] (lines 44-79): every field but [restaurant_id], and
    no [id]. *)
Definition defaultConfig : gmap string value :=
  list_to_map [
    ("is_published", VBool false);
    ("subdomain", VNull);
    ("custom_domain", VNull);
    ("theme_color", VStr "#FF6B35");
    ("secondary_color", VStr "#1A1A2E");
    ("font_family", VStr "Inter");
    ("logo_position", VStr "left");
    ("hero_title", VNull);
    ("hero_subtitle", VNull);
    ("hero_image_url", VNull);
    ("hero_cta_text", VStr "Réserver une table");
    ("hero_cta_enabled", VBool true);
    ("about_title", VStr "À propos");
    ("about_content", VNull);
    ("about_image_url", VNull);
    ("about_enabled", VBool true);
    ("menu_title", VStr "Notre Menu");
    ("menu_enabled", VBool true);
    ("menu_display_style", VStr "grid");
    ("gallery_title", VStr "Galerie");
    ("gallery_images", VList []);
    ("gallery_enabled", VBool true);
    ("contact_title", VStr "Contact");
    ("contact_enabled", VBool true);
    ("show_map", VBool true);
    ("show_opening_hours", VBool true);
    ("reservations_title", VStr "Réservations");
    ("reservations_enabled", VBool true);
    ("reservations_description", VNull);
    ("show_social_links", VBool true);
    ("meta_title", VNull);
    ("meta_description", VNull);
    ("meta_keywords", VNull);
    ("google_analytics_id", VNull)
  ].

(** The requests the hook can send to the table [restaurant_websites]
    through the client, with the verbs of the client's query builder. *)
Inductive StoreOp : Type :=
  | SelectMaybeSingle (restaurant_id : string)
      (* .select('*').eq('restaurant_id', _).maybeSingle() *)
  | Update (payload : gmap string value) (id : value)
      (* .update(_).eq('id', _) *)
  | InsertSelectSingle (payload : gmap string value)
      (* .insert(_).select().single() *)
  | Upsert (payload : gmap string value)
  | Delete (id : value).

(** The [{ data, error }] the client resolves with. *)
Inductive StoreReply : Type :=
  | Failed
  | Answered (data : option (gmap string value)).

Definition is_write (op : StoreOp) : bool :=
  match op with
  | SelectMaybeSingle _ => false
  | _ => true
  end.

Definition is_delete (op : StoreOp) : bool :=
  match op with
  | Delete _ => true
  | _ => false
  end.

(** What the hook does besides changing its state. *)
Inductive Event : Type :=
  | Sent (op : StoreOp)
  | Toast (title description : string) (destructive : bool)
  | ConsoleError (label : string).

Definition sent (trace : list Event) : list StoreOp :=
  omap (fun e => match e with Sent op => Some op | _ => None end) trace.

(** The three [useState] cells. *)
Record HookState : Type := {
  config : option (gmap string value);
  loading : bool;
  saving : bool
}.

Definition initial : HookState :=
  {| config := None; loading := true; saving := false |}.

Definition setConfig (c : gmap string value) (st : HookState) : HookState :=
  {| config := Some c; loading := loading st; saving := saving st |}.
Definition setLoading (b : bool) (st : HookState) : HookState :=
  {| config := config st; loading := b; saving := saving st |}.
Definition setSaving (b : bool) (st : HookState) : HookState :=
  {| config := config st; loading := loading st; saving := b |}.

(** [!restaurantId]: [null] and the empty string are both falsy. *)
Definition no_restaurant (restaurantId : option string) : bool :=
  match restaurantId with
  | None => true
  | Some rid => String.eqb rid ""
  end.

Section Hook.
(** The argument of [useRestaurantWebsite] and the store behind the
    client. *)
Variable restaurantId : option string.
Variable store : StoreOp -> StoreReply.

(** [loadWebsiteConfig] (lines 93-125): the state after the call and
    what was done on the way. *)
Definition loadWebsiteConfig (st : HookState) : HookState * list Event :=
  match restaurantId with
  | None => (st, [])
  | Some rid =>
      if String.eqb rid "" then (st, [])
      else
        let st1 := setLoading true st in
        let op := SelectMaybeSingle rid in
        match store op with
        | Failed =>
            (setLoading false st1,
             [Sent op;
              ConsoleError "Error loading website config:";
              Toast "Erreur" "Impossible de charger la configuration du site" true])
        | Answered (Some data) =>
            (setLoading false (setConfig data st1), [Sent op])
        | Answered None =>
            (setLoading false
               (setConfig (<["restaurant_id" := VStr rid]> defaultConfig) st1),
             [Sent op])
        end
  end.

Definition save_failed (st : HookState) (done : list Event)
    : HookState * list Event * bool :=
  (setSaving false st,
   done ++ [ConsoleError "Error saving website config:";
            Toast "Erreur" "Impossible de sauvegarder la configuration" true],
   false).

Definition save_succeeded (st : HookState) (done : list Event)
    (updatedConfig : gmap string value) : HookState * list Event * bool :=
  (setSaving false (setConfig updatedConfig st),
   done ++ [Toast "Sauvegardé" "Configuration du site mise à jour" false],
   true).

(** [saveConfig] (lines 127-174): the state after the call, what was
    done on the way, and the boolean returned. *)
Definition saveConfig (updates : gmap string value) (st : HookState)
    : HookState * list Event * bool :=
  match restaurantId, config st with
  | None, _ | _, None => (st, [], false)
  | Some rid, Some cfg =>
      if String.eqb rid "" then (st, [], false)
      else
        let st1 := setSaving true st in
        let updatedConfig := spread cfg updates in
        if truthy (cfg !! "id") then
          let op := Update updates (read cfg "id") in
          match store op with
          | Failed => save_failed st1 [Sent op]
          | Answered _ => save_succeeded st1 [Sent op] updatedConfig
          end
        else
          let op := InsertSelectSingle
                      (<["restaurant_id" := VStr rid]> updatedConfig) in
          match store op with
          | Failed => save_failed st1 [Sent op]
          | Answered None => save_failed st1 [Sent op]
          | Answered (Some data) =>
              save_succeeded st1 [Sent op]
                (<["id" := read data "id"]> updatedConfig)
          end
  end.

(** Lines 190-196. *)
Definition publishWebsite (st : HookState) : HookState * list Event * bool :=
  saveConfig {[ "is_published" := VBool true ]} st.

Definition unpublishWebsite (st : HookState) : HookState * list Event * bool :=
  saveConfig {[ "is_published" := VBool false ]} st.

End Hook.

(** The [id] the in-memory configuration carries, if any. *)
Definition config_id (st : HookState) : option value :=
  config st ≫= (fun c => c !! "id").

(** The column defaults of the table (the [DEFAULT] clauses of
    [CREATE TABLE public.restaurant_websites], index.ts lines 286-331). *)
Definition column_defaults : list (string * value) :=
  [("is_published", VBool false);
   ("theme_color", VStr "#FF6B35");
   ("secondary_color", VStr "#1A1A2E");
   ("font_family", VStr "Inter");
   ("logo_position", VStr "left");
   ("hero_cta_text", VStr "Réserver une table");
   ("hero_cta_enabled", VBool true);
   ("about_title", VStr "À propos");
   ("about_enabled", VBool true);
   ("menu_title", VStr "Notre Menu");
   ("menu_enabled", VBool true);
   ("menu_display_style", VStr "grid");
   ("gallery_title", VStr "Galerie");
   ("gallery_images", VList []);
   ("gallery_enabled", VBool true);
   ("contact_title", VStr "Contact");
   ("contact_enabled", VBool true);
   ("show_map", VBool true);
   ("show_opening_hours", VBool true);
   ("reservations_title", VStr "Réservations");
   ("reservations_enabled", VBool true);
   ("show_social_links", VBool true)].

(** The columns without a default: [NULL] in a fresh row. *)
Definition nullable_columns : list string :=
  ["subdomain"; "custom_domain"; "hero_title"; "hero_subtitle";
   "hero_image_url"; "about_content"; "about_image_url";
   "reservations_description"; "meta_title"; "meta_description";
   "meta_keywords"; "google_analytics_id"].

(** A configuration as [loadWebsiteConfig] leaves it when the restaurant
    "r-1" has no row yet, and one whose row "row-1" is known. *)
Definition blank_config : gmap string value :=
  <["restaurant_id" := VStr "r-1"]> defaultConfig.

Definition loaded_config : gmap string value :=
  <["id" := VStr "row-1"]> blank_config.

Definition state_with (c : gmap string value) : HookState :=
  {| config := Some c; loading := false; saving := false |}.

(** A store that accepts every request and gives an inserted row the id
    "row-1". *)
Definition accepting_store (op : StoreOp) : StoreReply :=
  match op with
  | InsertSelectSingle payload => Answered (Some (<["id" := VStr "row-1"]> payload))
  | _ => Answered None
  end.
(** A store that already has the row "row-1" for every restaurant asked
    for, and gives a newly inserted row the id "row-2" (the table has no
    uniqueness constraint on [restaurant_id]). *)
Definition store_with_row (op : StoreOp) : StoreReply :=
  match op with
  | SelectMaybeSingle rid =>
      Answered (Some (<["id" := VStr "row-1"]>
                        (<["restaurant_id" := VStr rid]> defaultConfig)))
  | InsertSelectSingle payload => Answered (Some (<["id" := VStr "row-2"]> payload))
  | _ => Answered None
  end.

End WebsiteHook.

(** ** The public site: [get_public_website] and [RestaurantSite] *)

Module PublicSite.

(** A row of [restaurant_websites]; the columns the query looks at, and
    the rest of the row as an object.  [subdomain] is nullable,
    [is_published] and [restaurant_id] are [NOT NULL]. *)
Record website_row : Type := {
  rw_restaurant_id : string;
  rw_is_published : bool;
  rw_subdomain : option string;
  rw_columns : gmap string value
}.

(** A row of [restaurants]: its key, the activity flag (nullable as far
    as this repository shows) and the columns copied into
    [restaurant_data]. *)
Record restaurant_row : Type := {
  r_id : string;
  r_is_active : option bool;
  r_columns : gmap string value
}.

Record database : Type := {
  restaurant_websites : list website_row;
  restaurants : list restaurant_row
}.

(** One row of the function's result table. *)
Record WebsiteData : Type := {
  website_config : website_row;       (* to_jsonb(rw.star) *)
  restaurant_data : gmap string value (* jsonb_build_object('id', r.id, ...) *)
}.

(** SQL [a = b] on a nullable text column, used as a filter: a [NULL]
    never passes. *)
Definition sql_eq_text (a : option string) (b : string) : bool :=
  match a with
  | Some s => String.eqb s b
  | None => false
  end.

(** SQL [a = true] on a nullable boolean, used as a filter. *)
Definition sql_is_true (a : option bool) : bool :=
  match a with
  | Some b => b
  | None => false
  end.

Definition joined (rw : website_row) (r : restaurant_row) : WebsiteData :=
  {| website_config := rw;
     restaurant_data := <["id" := VStr (r_id r)]> (r_columns r) |}.

(** The query of [get_public_website] (index.ts lines 431-474): the
    join of the two tables on [r.id = rw.restaurant_id], filtered by the
    three conditions of its [WHERE]. *)
Definition get_public_website (db : database) (website_subdomain : string)
    : list WebsiteData :=
  rw ← restaurant_websites db;
  r ← restaurants db;
  if String.eqb (r_id r) (rw_restaurant_id rw)
     && sql_eq_text (rw_subdomain rw) website_subdomain
     && rw_is_published rw
     && sql_is_true (r_is_active r)
  then [joined rw r] else [].

(** How the remote call ends: with an error, or with the rows of the
    query. *)
Inductive rpc_outcome : Type := RpcError | RpcOk.

(** The [useState] cells of the page that [loadWebsite] writes. *)
Record PageState : Type := {
  data : option WebsiteData;
  loading : bool;
  error : option string
}.

Definition initial : PageState :=
  {| data := None; loading := true; error := None |}.

Definition setData (d : WebsiteData) (st : PageState) : PageState :=
  {| data := Some d; loading := loading st; error := error st |}.
Definition setError (e : string) (st : PageState) : PageState :=
  {| data := data st; loading := loading st; error := Some e |}.
Definition setLoading (b : bool) (st : PageState) : PageState :=
  {| data := data st; loading := b; error := error st |}.

(** [loadWebsite] (RestaurantSite.tsx lines 34-58), run by the effect on
    mount and again whenever the [subdomain] parameter changes: it writes
    the cells it sets and leaves the others as the previous run left
    them. *)
Definition loadWebsite (db : database) (outcome : rpc_outcome)
    (subdomain : option string) (st : PageState) : PageState :=
  match subdomain with
  | None => setLoading false (setError "Site non trouvé" st)
  | Some sub =>
      if String.eqb sub "" then setLoading false (setError "Site non trouvé" st)
      else
        match outcome with
        | RpcError =>
            setLoading false (setError "Erreur lors du chargement du site" st)
        | RpcOk =>
            match get_public_website db sub with
            | first :: _ => setLoading false (setData first st)
            | [] => setLoading false (setError "Site non trouvé" st)
            end
        end
  end.

(** What the component returns (lines 63-80 and below). *)
Inductive view : Type :=
  | Spinner
  | NotFound (text : string)      (* the 404 block *)
  | Site (shown : WebsiteData).

Definition render (st : PageState) : view :=
  if loading st then Spinner
  else
    match error st, data st with
    | Some e, d =>
        if String.eqb e "" then
          match d with
          | Some shown => Site shown
          | None => NotFound "Site non trouvé"
          end
        else NotFound e
    | None, None => NotFound "Site non trouvé"
    | None, Some shown => Site shown
    end.

(** The rows a public fetch of [sub] may legitimately show. *)
Definition servable (db : database) (sub : string) (rw : website_row)
    (r : restaurant_row) : Prop :=
  rw ∈ restaurant_websites db ∧ r ∈ restaurants db ∧
  r_id r = rw_restaurant_id rw ∧
  rw_subdomain rw = Some sub ∧
  rw_is_published rw = true ∧
  r_is_active r = Some true.

End PublicSite.

(** ** Subdomain generation: [generate_website_subdomain] and its caller *)

Module Subdomain.
Import JsString PublicSite.

Definition is_digit (c : ascii) : bool :=
  let n := nat_of_ascii c in (48 <=? n)%nat && (n <=? 57)%nat.

(** The bracket expression [a-z0-9]. *)
Definition is_slug_char (c : ascii) : bool := is_lower c || is_digit c.

Definition is_dash (c : ascii) : bool := Ascii.eqb c "-".

(** [regexp_replace(s, '[^a-z0-9]+', '-', 'g')]: every maximal run of
    characters outside a-z0-9 becomes one dash.  [in_run] says that the
    character before was part of such a run.  A character of several bytes
    is a run of bytes outside a-z0-9, so the result is the same on the
    bytes as on the characters. *)
Fixpoint replace_runs (in_run : bool) (s : string) : string :=
  match s with
  | EmptyString => EmptyString
  | String c s' =>
      if is_slug_char c then String c (replace_runs false s')
      else if in_run then replace_runs true s'
      else String "-" (replace_runs true s')
  end.

Definition regexp_replace_non_slug (s : string) : string := replace_runs false s.

(** [lower(s)].  Its argument below is the result of the replacement, which
    has no character outside ASCII. *)
Definition lower (s : string) : string := ascii_lower s.

(** [trim(both '-' from s)], the leading side and the trailing side. *)
Fixpoint ltrim_dash (s : string) : string :=
  match s with
  | EmptyString => EmptyString
  | String c s' => if is_dash c then ltrim_dash s' else s
  end.

Fixpoint rtrim_dash (s : string) : string :=
  match s with
  | EmptyString => EmptyString
  | String c s' =>
      if is_dash c && String.eqb (rtrim_dash s') "" then EmptyString
      else String c (rtrim_dash s')
  end.

Definition trim_both_dash (s : string) : string := rtrim_dash (ltrim_dash s).

(** What the loop looks at: [EXISTS (SELECT 1 FROM restaurant_websites WHERE
    subdomain = final_slug)]. *)
Definition subdomain_taken (db : database) (final_slug : string) : bool :=
  existsb (fun rw => sql_eq_text (rw_subdomain rw) final_slug)
          (restaurant_websites db).

(** [base_slug || '-' || counter], and [base_slug] itself before the first
    turn of the loop. *)
Definition candidate (base_slug : string) (counter : Z) : string :=
  if counter =? 0 then base_slug else base_slug +:+ "-" +:+ pretty counter.

(** How a run of the [WHILE] loop ends: with the [RETURN], with the error
    of [counter + 1] on the largest [integer], or not within the turns
    given to it. *)
Inductive loop_result : Type :=
  | Returned (final_slug : string)
  | IntegerOutOfRange
  | StillLooping.

Fixpoint uniqueness_loop (turns : nat) (db : database) (base_slug : string)
    (counter : Z) (final_slug : string) : loop_result :=
  if subdomain_taken db final_slug then
    match turns with
    | O => StillLooping
    | S turns' =>
        if 2147483647 <=? counter then IntegerOutOfRange
        else uniqueness_loop turns' db base_slug (counter + 1)
               (base_slug +:+ "-" +:+ pretty (counter + 1))
    end
  else Returned final_slug.

Section WithUnaccent.

(** [unaccent] of the PostgreSQL extension of that name; its dictionary is
    not part of the repository. *)
Variable unaccent : string -> string.

Definition base_slug_of (restaurant_name : string) : string :=
  trim_both_dash (lower (regexp_replace_non_slug (unaccent restaurant_name))).

(** [generate_website_subdomain] (index.ts lines 401-428) for a name that
    is not [NULL], with the loop cut after [turns] turns. *)
Definition generate_website_subdomain (turns : nat) (db : database)
    (restaurant_name : string) : loop_result :=
  uniqueness_loop turns db (base_slug_of restaurant_name) 0
    (base_slug_of restaurant_name).

End WithUnaccent.

(** Shape of a text: what it starts with, what it ends with, whether two
    dashes follow each other. *)
Definition first_char (s : string) : option ascii :=
  match s with
  | EmptyString => None
  | String c _ => Some c
  end.

Fixpoint last_char (s : string) : option ascii :=
  match s with
  | EmptyString => None
  | String c EmptyString => Some c
  | String _ s' => last_char s'
  end.

Fixpoint filter_chars (f : ascii -> bool) (s : string) : string :=
  match s with
  | EmptyString => EmptyString
  | String c s' => if f c then String c (filter_chars f s') else filter_chars f s'
  end.

(** No dash directly after a dash; [after_dash] says that the character
    before the text was one. *)
Fixpoint dashes_apart (after_dash : bool) (s : string) : bool :=
  match s with
  | EmptyString => true
  | String c s' =>
      if is_dash c then negb after_dash && dashes_apart true s'
      else dashes_apart false s'
  end.

Definition slug_or_dash (c : ascii) : bool := is_slug_char c || is_dash c.

(** The identity as [unaccent], for names without accents. *)
Definition no_accents (s : string) : string := s.

(** A table with two rows, one of them under the subdomain "hez-arie",
    the other without a subdomain. *)
Definition site_row (sub : option string) : website_row :=
  {| rw_restaurant_id := "r-0";
     rw_is_published := true;
     rw_subdomain := sub;
     rw_columns := ∅ |}.

Definition two_sites : database :=
  {| restaurant_websites := [site_row (Some "hez-arie"); site_row None];
     restaurants := [] |}.

End Subdomain.

(** ** Alternatives of the detectors that contain another alternative *)

Module EnhancerPatterns.

(** The patterns without the alternatives in which another alternative of
    the same pattern occurs ("oil painting" and "cartoon" contain "painting"
    and "art", "photograph" contains "photo", "realistic" contains "real"),
    and the 3D pattern without "digital art", in which the artistic "art"
    occurs. *)
Definition artistic_words_short : list string :=
  ["art"; "painting"; "drawing"; "sketch"; "illustration"; "anime";
   "watercolor"; "abstract"].
Definition photo_words_short : list string :=
  ["photo"; "real"; "portrait"; "landscape"; "nature"].
Definition render3d_words_short : list string := ["3d"; "render"; "cgi"].

End EnhancerPatterns.

(** ** The list inputs of the builder form (WebsiteBuilderSection) *)

Module FormInputs.
Import JsString.

Definition newline : ascii := ascii_of_nat 10.

(** [Boolean(s)] for a string: the test of [filter(Boolean)]. *)
Definition non_empty (s : string) : bool := negb (String.eqb s "").

(** [list.join(sep)] on strings. *)
Fixpoint join (sep : string) (l : list string) : string :=
  match l with
  | [] => EmptyString
  | x :: rest =>
      match rest with
      | [] => x
      | _ :: _ => x +:+ sep +:+ join sep rest
      end
  end.

(** The white space and line terminators that [String.prototype.trim]
    strips, as UTF-8: the ASCII ones (TAB, LF, VT, FF, CR, SP), U+00A0,
    U+1680, U+2000 to U+200A, U+2028, U+2029, U+202F, U+205F, U+3000 and
    U+FEFF. *)
Definition is_ascii_space (c : ascii) : bool :=
  let n := nat_of_ascii c in ((9 <=? n) && (n <=? 13) || (n =? 32))%nat.

Definition is_space2 (c d : ascii) : bool :=
  ((nat_of_ascii c =? 194) && (nat_of_ascii d =? 160))%nat.

Definition is_space3 (c d e : ascii) : bool :=
  let '(x, y, z) := (nat_of_ascii c, nat_of_ascii d, nat_of_ascii e) in
  ((x =? 225) && (y =? 154) && (z =? 128)
   || (x =? 226) && (y =? 128)
      && ((128 <=? z) && (z <=? 138) || (z =? 168) || (z =? 169) || (z =? 175))
   || (x =? 226) && (y =? 129) && (z =? 159)
   || (x =? 227) && (y =? 128) && (z =? 128)
   || (x =? 239) && (y =? 187) && (z =? 191))%nat.

(** What follows the white-space character that [s] starts with, if it
    starts with one. *)
Definition space_prefix (s : string) : option string :=
  match s with
  | String c s1 =>
      if is_ascii_space c then Some s1
      else
        match s1 with
        | String d s2 =>
            if is_space2 c d then Some s2
            else
              match s2 with
              | String e s3 => if is_space3 c d e then Some s3 else None
              | EmptyString => None
              end
        | EmptyString => None
        end
  | EmptyString => None
  end.

(** [s.trimStart()] *)
Fixpoint trimStart (s : string) : string :=
  match s with
  | String c s1 =>
      if is_ascii_space c then trimStart s1
      else
        match s1 with
        | String d s2 =>
            if is_space2 c d then trimStart s2
            else
              match s2 with
              | String e s3 => if is_space3 c d e then trimStart s3 else s
              | EmptyString => s
              end
        | EmptyString => s
        end
  | EmptyString => EmptyString
  end.

(** [s.trimEnd()]: the text up to its longest ending made of white space
    only. *)
Fixpoint trimEnd (s : string) : string :=
  match s with
  | EmptyString => EmptyString
  | String c s' =>
      if String.eqb (trimStart s) "" then EmptyString
      else String c (trimEnd s')
  end.

(** [s.trim()] *)
Definition trim (s : string) : string := trimEnd (trimStart s).

(** The gallery textarea (RestaurantSite.tsx lines 1003-1004): what it
    shows for the stored list, [(images || []).join('\n')], and what a
    change stores, [text.split('\n').filter(Boolean)]. *)
Definition show_gallery_images (images : list string) : string :=
  join (String newline EmptyString) images.

Definition parse_gallery_images (text : string) : list string :=
  List.filter non_empty (split newline text).

(** The keywords input (lines 1053-1054): [(keywords || []).join(', ')]
    and [text.split(',').map(k => k.trim()).filter(Boolean)]. *)
Definition show_keywords (keywords : list string) : string :=
  join ", " keywords.

Definition parse_keywords (text : string) : list string :=
  List.filter non_empty (List.map trim (split "," text)).

(** An entry that the gallery textarea gives back as it is. *)
Definition plain_line (x : string) : Prop :=
  x <> "" /\ count_char newline x = 0%nat.

(** A keyword that the keywords input gives back as it is. *)
Definition plain_keyword (k : string) : Prop :=
  k <> "" /\ count_char "," k = 0%nat /\ trim k = k.

End FormInputs.

(** ** The builder form (WebsiteBuilderSection) over the hook *)

Module WebsiteBuilder.
Import WebsiteHook.

(** The [{ data, error }] of [supabase.rpc('generate_website_subdomain')]. *)
Inductive RpcReply : Type :=
  | RpcFailed
  | RpcData (data : value).

(** What a handler of the form does: what the hook does, and the remote
    call of [generateSubdomain]. *)
Inductive Event : Type :=
  | OfHook (e : WebsiteHook.Event)
  | RpcCalled (restaurant_name : string).

Definition store_ops (trace : list Event) : list StoreOp :=
  sent (omap (fun e => match e with OfHook h => Some h | _ => None end) trace).

Definition rpc_calls (trace : list Event) : list string :=
  omap (fun e => match e with RpcCalled n => Some n | _ => None end) trace.

Definition toasts (trace : list Event) : list string :=
  omap (fun e => match e with
                 | OfHook (Toast title _ _) => Some title
                 | _ => None
                 end) trace.

(** The hook's cells and the [formData] cell of the form.  The
    [hasChanges] cell only drives the look of the save button and is left
    out. *)
Record BuilderState : Type := {
  hook : HookState;
  formData : gmap string value
}.

(** The effect on [config] (RestaurantSite.tsx lines 487-491),
    [if (config) setFormData(config)]: it runs after a render in which the
    hook installed a configuration object, and [saveConfig] installs one
    exactly when it returns true. *)
Definition config_effect (installed : bool) (st : HookState)
    (form : gmap string value) : gmap string value :=
  if installed then
    match config st with
    | Some c => c
    | None => form
    end
  else form.

(** The form after a call of [saveConfig] has resolved and the effects
    have run. *)
Definition after_save (b : BuilderState)
    (r : HookState * list WebsiteHook.Event * bool)
    : BuilderState * list Event :=
  ({| hook := r.1.1; formData := config_effect r.2 r.1.1 (formData b) |},
   List.map OfHook r.1.2).

Definition preceded_by (called : list Event) (r : BuilderState * list Event)
    : BuilderState * list Event :=
  (r.1, called ++ r.2).

(** [config?.is_published] as a condition. *)
Definition shown_as_published (b : BuilderState) : bool :=
  truthy (config (hook b) ≫= (fun c => c !! "is_published")).

Section Builder.

Variable restaurantId : option string.
Variable restaurantName : string.
Variable store : StoreOp -> StoreReply.
Variable rpc : string -> RpcReply.

(** [generateSubdomain] of the hook (useRestaurantWebsite.tsx lines
    176-188): what it does and the value it resolves with, [data] as it
    came or [null]. *)
Definition generateSubdomain (name : string) : list Event * value :=
  match rpc name with
  | RpcFailed =>
      ([RpcCalled name; OfHook (ConsoleError "Error generating subdomain:")],
       VNull)
  | RpcData data => ([RpcCalled name], data)
  end.

(** [handleChange] (lines 500-502) *)
Definition handleChange (field : string) (v : value) (b : BuilderState)
    : BuilderState :=
  {| hook := hook b; formData := <[field := v]> (formData b) |}.

(** [handleSave] (lines 504-507), without the [hasChanges] cell *)
Definition handleSave (b : BuilderState) : BuilderState * list Event :=
  after_save b (saveConfig restaurantId store (formData b) (hook b)).

(** [handleGenerateSubdomain] (lines 509-514) *)
Definition handleGenerateSubdomain (b : BuilderState)
    : BuilderState * list Event :=
  let '(called, subdomain) := generateSubdomain restaurantName in
  if truthy (Some subdomain) then (handleChange "subdomain" subdomain b, called)
  else (b, called).

(** [handleTogglePublish] (lines 516-530) *)
Definition handleTogglePublish (b : BuilderState) : BuilderState * list Event :=
  if shown_as_published b then
    after_save b (unpublishWebsite restaurantId store (hook b))
  else if negb (truthy (formData b !! "subdomain")) then
    let '(called, subdomain) := generateSubdomain restaurantName in
    if truthy (Some subdomain) then
      preceded_by called
        (after_save b
           (saveConfig restaurantId store
              (<["is_published" := VBool true]>
                 (<["subdomain" := subdomain]> (formData b)))
              (hook b)))
    else
      preceded_by called
        (after_save b (publishWebsite restaurantId store (hook b)))
  else after_save b (publishWebsite restaurantId store (hook b)).

End Builder.

(** The form as the effect leaves it for a loaded configuration, before
    any edit. *)
Definition form_of (st : HookState) : BuilderState :=
  {| hook := st; formData := default ∅ (config st) |}.

(** A sequence of [handleChange]s, the first of the list first. *)
Definition edited (edits : list (string * value)) (b : BuilderState)
    : BuilderState :=
  fold_left (fun acc e => handleChange e.1 e.2 acc) edits b.

(** The payload of a write. *)
Definition payload (op : StoreOp) : gmap string value :=
  match op with
  | Update p _ | InsertSelectSingle p | Upsert p => p
  | SelectMaybeSingle _ | Delete _ => ∅
  end.

Definition is_update_or_insert (op : StoreOp) : bool :=
  match op with
  | Update _ _ | InsertSelectSingle _ => true
  | _ => false
  end.

(** What one call of [saveConfig] from the form comes to: no remote call,
    at most one request, which is the update of [updates] against the known
    id or the insert of the merged configuration, and either nothing
    changed, or the request went through and the merged configuration (but
    for its [id]) is both the hook's and the form's. *)
Definition save_outcome (restaurantId : option string)
    (updates : gmap string value) (b : BuilderState)
    (r : BuilderState * list Event) : Prop :=
  rpc_calls r.2 = []
  /\ (length (store_ops r.2) <= 1)%nat
  /\ (forall op, op ∈ store_ops r.2 ->
        exists cfg,
          config (hook b) = Some cfg
          /\ (op = Update updates (read cfg "id")
              \/ exists rid,
                   restaurantId = Some rid
                   /\ op = InsertSelectSingle
                             (<["restaurant_id" := VStr rid]> (spread cfg updates))))
  /\ ((config (hook r.1) = config (hook b) /\ formData r.1 = formData b
       /\ "Sauvegardé" ∉ toasts r.2)
      \/ exists cfg cfg',
           config (hook b) = Some cfg
           /\ config (hook r.1) = Some cfg'
           /\ formData r.1 = cfg'
           /\ store_ops r.2 <> []
           /\ toasts r.2 = ["Sauvegardé"]
           /\ forall k, k <> "id" -> cfg' !! k = spread cfg updates !! k).

(** The remote function behind [generateSubdomain] when it is the SQL
    function run on [db]: its text, or the error of the integer overflow.
    The loop gets one turn per row, which is all it takes. *)
Definition sql_rpc (unaccent : string -> string) (db : PublicSite.database)
    (name : string) : RpcReply :=
  match Subdomain.generate_website_subdomain unaccent
          (length (PublicSite.restaurant_websites db)) db name with
  | Subdomain.Returned slug => RpcData (VStr slug)
  | Subdomain.IntegerOutOfRange | Subdomain.StillLooping => RpcFailed
  end.

(** The form of a restaurant that has no row yet. *)
Definition fresh_form : BuilderState := form_of (state_with blank_config).

End WebsiteBuilder.

(** ** The hook over time

    What a component does with the hook between mount and unmount: the
    load of the mount effect ([reload] later on) and calls of the functions
    the hook returns, each one resolved and rendered before the next.  The
    store may answer differently from one call to the next, so every call
    comes with the store as it is then. *)

Module HookSession.
Import WebsiteHook.

Inductive Call : Type :=
  | Reload                                 (* [loadWebsiteConfig] *)
  | Save (updates : gmap string value)     (* [saveConfig(updates)] *)
  | Publish                                (* [publishWebsite()] *)
  | Unpublish.                             (* [unpublishWebsite()] *)

Definition is_reload (c : Call) : bool :=
  match c with
  | Reload => true
  | _ => false
  end.

Section Session.

Variable restaurantId : option string.

Definition call (store : StoreOp -> StoreReply) (c : Call) (st : HookState)
    : HookState * list Event :=
  match c with
  | Reload => loadWebsiteConfig restaurantId store st
  | Save updates => (saveConfig restaurantId store updates st).1
  | Publish => (publishWebsite restaurantId store st).1
  | Unpublish => (unpublishWebsite restaurantId store st).1
  end.

Fixpoint run (steps : list ((StoreOp -> StoreReply) * Call)) (st : HookState)
    : HookState * list Event :=
  match steps with
  | [] => (st, [])
  | (store, c) :: rest =>
      let first := call store c st in
      let then_ := run rest first.1 in
      (then_.1, first.2 ++ then_.2)
  end.

(** The requests the hook may send for its restaurant. *)
Definition own_request (op : StoreOp) : Prop :=
  exists rid,
    restaurantId = Some rid /\ rid <> ""
    /\ (op = SelectMaybeSingle rid
        \/ (exists updates id, op = Update updates id /\ truthy (Some id) = true)
        \/ (exists row, op = InsertSelectSingle row
                        /\ row !! "restaurant_id" = Some (VStr rid))).

End Session.

(** A store without a row for the restaurant, and one that accepts an
    insert with the row "row-1". *)
Definition empty_store (op : StoreOp) : StoreReply := Answered None.

End HookSession.

(** ** What the public page shows (RestaurantSite, lines 82-446)

    The page as the list of its sections and buttons, in document order,
    each under the condition the JSX puts on it.  Texts, images and styles
    are left out. *)

Module SitePage.
Import WebsiteHook PublicSite.

Inductive Element : Type :=
  | Section_ (id : option string)   (* [<section id=...>] *)
  | ScrollButton (target : string)  (* [onClick: scrollToSection(target)] *)
  | ReserveButton.                  (* [onClick: setReservationModalOpen(true)] *)

(** [{cond && (...)}] *)
Definition when (cond : bool) (shown : list Element) : list Element :=
  if cond then shown else [].

(** [v.length > 0] for a truthy [v]. *)
Definition has_items (v : option value) : bool :=
  match v with
  | Some (VList items) => negb (Nat.eqb (length items) 0)
  | Some (VStr s) => negb (Nat.eqb (String.length s) 0)
  | _ => false
  end.

Section Page.

Variable shown : WebsiteData.

(** [config.k] and [restaurant.k] as conditions. *)
Definition config_flag (k : string) : bool :=
  truthy (rw_columns (website_config shown) !! k).

Definition restaurant_flag (k : string) : bool :=
  truthy (restaurant_data shown !! k).

Definition reservations_open : bool :=
  config_flag "reservations_enabled" && restaurant_flag "reservations_enabled".

Definition gallery_shown : bool :=
  config_flag "gallery_enabled" && config_flag "gallery_images"
  && has_items (rw_columns (website_config shown) !! "gallery_images").

Definition navigation : list Element :=
  when (config_flag "about_enabled") [ScrollButton "about"]
  ++ when (config_flag "menu_enabled") [ScrollButton "menu"]
  ++ when (config_flag "gallery_enabled") [ScrollButton "gallery"]
  ++ when (config_flag "contact_enabled") [ScrollButton "contact"]
  ++ when reservations_open [ReserveButton].

Definition hero : list Element :=
  [Section_ None]
  ++ when (config_flag "hero_cta_enabled" && config_flag "reservations_enabled"
           && restaurant_flag "reservations_enabled") [ReserveButton]
  ++ [ScrollButton "about"].

Definition outline : list Element :=
  navigation
  ++ hero
  ++ when (config_flag "about_enabled") [Section_ (Some "about")]
  ++ when (config_flag "menu_enabled") [Section_ (Some "menu")]
  ++ when gallery_shown [Section_ (Some "gallery")]
  ++ when (config_flag "contact_enabled") [Section_ (Some "contact")]
  ++ when reservations_open [Section_ (Some "reservations"); ReserveButton].

(** [document.getElementById(id)] finds a section of the page. *)
Definition has_section (id : string) : bool :=
  existsb (fun e => match e with
                    | Section_ (Some i) => String.eqb i id
                    | _ => false
                    end) outline.

(** The targets of the scroll buttons on the page, and those among them
    that no section answers to: [scrollToSection] does nothing there. *)
Definition scroll_targets : list string :=
  omap (fun e => match e with ScrollButton t => Some t | _ => None end) outline.

Definition dead_targets : list string :=
  List.filter (fun t => negb (has_section t)) scroll_targets.

Definition reserve_buttons : nat :=
  length (List.filter (fun e => match e with ReserveButton => true | _ => false end)
            outline).

End Page.

End SitePage.

(** * Properties *)

(** ** Strings and patterns *)

Section StringFacts.
Import JsString Regex.

Lemma map_chars_app (f : ascii -> ascii) (a b : string) :
  map_chars f (a +:+ b) = map_chars f a +:+ map_chars f b.
Proof. induction a as [|c a IH]; simpl; [reflexivity | now rewrite IH]. Qed.

Lemma match_here_self (w rest : string) : match_here w (w +:+ rest) = true.
Proof.
  induction w as [|c w IH]; simpl; [reflexivity|].
  now rewrite Ascii.eqb_refl, IH.
Qed.

Lemma match_anywhere_here (w s : string) :
  match_here w s = true -> match_anywhere w s = true.
Proof. destruct s; simpl; intros ->; reflexivity. Qed.

Lemma match_anywhere_skip (w before s : string) :
  match_anywhere w s = true -> match_anywhere w (before +:+ s) = true.
Proof.
  intros H. induction before as [|c before IH]; simpl; [exact H|].
  rewrite IH. apply orb_true_r.
Qed.

Lemma match_anywhere_inside (w before after : string) :
  match_anywhere w (before +:+ w +:+ after) = true.
Proof. apply match_anywhere_skip, match_anywhere_here, match_here_self. Qed.

Lemma regex_test_inside (alternatives : list string) (w before after : string) :
  In w alternatives ->
  regex_test alternatives (before +:+ w +:+ after) = true.
Proof.
  intros Hin. unfold regex_test. apply existsb_exists.
  exists w. split; [exact Hin | apply match_anywhere_inside].
Qed.

Lemma ascii_lower_law : Enhancer.lowercases_ascii Enhancer.ascii_toLowerCase.
Proof.
  intros before word after _.
  exists (ascii_lower before), (ascii_lower after).
  unfold Enhancer.ascii_toLowerCase, ascii_lower.
  now rewrite !map_chars_app.
Qed.

End StringFacts.

(** ** The prompt enhancer *)

Section EnhancerFacts.
Import JsString Enhancer.

Variable toLowerCase : string -> string.

#[local] Abbreviation isArtistic := (isArtistic toLowerCase).
#[local] Abbreviation isLogo := (isLogo toLowerCase).
#[local] Abbreviation is3D := (is3D toLowerCase).
#[local] Abbreviation isMinimal := (isMinimal toLowerCase).
#[local] Abbreviation isFood := (isFood toLowerCase).
#[local] Abbreviation isPhoto := (isPhoto toLowerCase).
#[local] Abbreviation selected_style := (selected_style toLowerCase).
#[local] Abbreviation enhancePrompt := (enhancePrompt toLowerCase).

Ltac chain_cases p :=
  unfold Enhancer.selected_style, precedence_table, first_match;
  destruct (isArtistic p), (isLogo p), (is3D p), (isMinimal p),
           (isFood p), (isPhoto p).

(** The if/else-if chain of the source is the ordered table. *)
Lemma enhancePrompt_table (userPrompt : string) (lang : json) :
  enhancePrompt userPrompt lang
  = fst (template_of lang (selected_style userPrompt)) +:+ userPrompt
    +:+ snd (template_of lang (selected_style userPrompt)).
Proof.
  unfold Enhancer.enhancePrompt, template_of.
  destruct (is_en lang); chain_cases userPrompt; reflexivity.
Qed.

(** Which detectors decide each style. *)
Lemma selected_style_cases (userPrompt : string) :
  (selected_style userPrompt = Artistic <-> isArtistic userPrompt = true)
  /\ (selected_style userPrompt = Logo <->
        isArtistic userPrompt = false /\ isLogo userPrompt = true)
  /\ (selected_style userPrompt = Render3D <->
        isArtistic userPrompt = false /\ isLogo userPrompt = false
        /\ is3D userPrompt = true)
  /\ (selected_style userPrompt = Minimal <->
        isArtistic userPrompt = false /\ isLogo userPrompt = false
        /\ is3D userPrompt = false /\ isMinimal userPrompt = true)
  /\ (selected_style userPrompt = Food <->
        isArtistic userPrompt = false /\ isLogo userPrompt = false
        /\ is3D userPrompt = false /\ isMinimal userPrompt = false
        /\ isFood userPrompt = true)
  /\ (selected_style userPrompt = Photo <->
        isArtistic userPrompt = false /\ isLogo userPrompt = false
        /\ is3D userPrompt = false /\ isMinimal userPrompt = false
        /\ isFood userPrompt = false /\ isPhoto userPrompt = true)
  /\ (selected_style userPrompt = Generic <->
        isArtistic userPrompt = false /\ isLogo userPrompt = false
        /\ is3D userPrompt = false /\ isMinimal userPrompt = false
        /\ isFood userPrompt = false /\ isPhoto userPrompt = false).
Proof.
  chain_cases userPrompt; repeat split; intros; try discriminate;
    intuition discriminate.
Qed.

Hypothesis toLowerCase_ascii : lowercases_ascii toLowerCase.

(** A word of a detector's pattern, spelled in any letter case, is
    detected wherever it stands in the prompt. *)
Lemma keyword_detected (words : list string) (word spelled before after : string) :
  In word words ->
  all_chars is_ascii spelled = true ->
  ascii_lower spelled = word ->
  Regex.regex_test words (toLowerCase (before +:+ spelled +:+ after)) = true.
Proof.
  intros Hin Hascii Hlow.
  destruct (toLowerCase_ascii before spelled after Hascii) as (b' & a' & ->).
  rewrite Hlow. now apply regex_test_inside.
Qed.

(** C1. For every prompt and language, [enhancePrompt] wraps the prompt
    in the template of exactly one style, the first of artistic, logo,
    3D, minimal, food, photo whose detector holds for the prompt, and the
    generic one when none does; each detector is a function of the prompt
    alone.  In particular a prompt in which an artistic keyword such as
    "painting" occurs (in any letter case) gets the artistic prefix and
    suffix of the language, and a prompt that matches the logo and the
    minimal detector but not the artistic one gets the logo template.
    Every detector holds for a prompt in which a keyword of its pattern
    occurs, and only when a word of its pattern is found in the lower-cased
    prompt, so a prompt in which a logo keyword such as "logo" and a
    minimal keyword such as "minimal" occur, and for which the artistic
    detector does not hold, matches both detectors and gets the logo
    template. *)
Theorem enhancePrompt_precedence (userPrompt : string) (lang : json) :
  enhancePrompt userPrompt lang
  = fst (template_of lang (selected_style userPrompt)) +:+ userPrompt
    +:+ snd (template_of lang (selected_style userPrompt))
  /\ (selected_style userPrompt = Artistic <-> isArtistic userPrompt = true)
  /\ (selected_style userPrompt = Logo <->
        isArtistic userPrompt = false /\ isLogo userPrompt = true)
  /\ (selected_style userPrompt = Render3D <->
        isArtistic userPrompt = false /\ isLogo userPrompt = false
        /\ is3D userPrompt = true)
  /\ (selected_style userPrompt = Minimal <->
        isArtistic userPrompt = false /\ isLogo userPrompt = false
        /\ is3D userPrompt = false /\ isMinimal userPrompt = true)
  /\ (selected_style userPrompt = Food <->
        isArtistic userPrompt = false /\ isLogo userPrompt = false
        /\ is3D userPrompt = false /\ isMinimal userPrompt = false
        /\ isFood userPrompt = true)
  /\ (selected_style userPrompt = Photo <->
        isArtistic userPrompt = false /\ isLogo userPrompt = false
        /\ is3D userPrompt = false /\ isMinimal userPrompt = false
        /\ isFood userPrompt = false /\ isPhoto userPrompt = true)
  /\ (selected_style userPrompt = Generic <->
        isArtistic userPrompt = false /\ isLogo userPrompt = false
        /\ is3D userPrompt = false /\ isMinimal userPrompt = false
        /\ isFood userPrompt = false /\ isPhoto userPrompt = false)
  /\ (isArtistic userPrompt = true ->
        enhancePrompt userPrompt lang
        = fst (template_of lang Artistic) +:+ userPrompt
          +:+ snd (template_of lang Artistic))
  /\ (forall word spelled before after : string,
        In word artistic_words ->
        all_chars is_ascii spelled = true ->
        ascii_lower spelled = word ->
        userPrompt = before +:+ spelled +:+ after ->
        isArtistic userPrompt = true)
  /\ (isArtistic userPrompt = false -> isLogo userPrompt = true ->
      isMinimal userPrompt = true ->
        enhancePrompt userPrompt lang
        = fst (template_of lang Logo) +:+ userPrompt
          +:+ snd (template_of lang Logo))
  /\ (has_keyword artistic_words userPrompt -> isArtistic userPrompt = true)
  /\ (has_keyword logo_words userPrompt -> isLogo userPrompt = true)
  /\ (has_keyword render3d_words userPrompt -> is3D userPrompt = true)
  /\ (has_keyword minimal_words userPrompt -> isMinimal userPrompt = true)
  /\ (has_keyword food_words userPrompt -> isFood userPrompt = true)
  /\ (has_keyword photo_words userPrompt -> isPhoto userPrompt = true)
  /\ (has_keyword artistic_words userPrompt ->
        selected_style userPrompt = Artistic
        /\ enhancePrompt userPrompt lang
           = fst (template_of lang Artistic) +:+ userPrompt
             +:+ snd (template_of lang Artistic))
  /\ (has_keyword logo_words userPrompt ->
      has_keyword minimal_words userPrompt ->
      isArtistic userPrompt = false ->
        isLogo userPrompt = true
        /\ isMinimal userPrompt = true
        /\ selected_style userPrompt = Logo
        /\ enhancePrompt userPrompt lang
           = fst (template_of lang Logo) +:+ userPrompt
             +:+ snd (template_of lang Logo))
  /\ (forall detector words,
        In (detector, words)
           [(isArtistic, artistic_words); (isLogo, logo_words);
            (is3D, render3d_words); (isMinimal, minimal_words);
            (isFood, food_words); (isPhoto, photo_words)] ->
        detector userPrompt = true ->
        exists word,
          In word words
          /\ Regex.match_anywhere word (toLowerCase userPrompt) = true).
Proof.
  pose proof (selected_style_cases userPrompt)
    as (HA & HL & H3 & HM & HF & HP & HG).
  assert (forall words,
            has_keyword words userPrompt ->
            Regex.regex_test words (toLowerCase userPrompt) = true) as Hkey.
  { intros words (word & spelled & before & after & Hin & Hascii & Hlow & ->).
    now apply keyword_detected with (word := word). }
  repeat match goal with |- _ /\ _ => split end; try assumption;
    try (intros Hword; exact (Hkey _ Hword)).
  - apply enhancePrompt_table.
  - intros Hart. rewrite enhancePrompt_table.
    apply HA in Hart. now rewrite Hart.
  - intros word spelled before after Hin Hascii Hlow ->.
    now apply keyword_detected with (word := word).
  - intros Hart Hlogo _. rewrite enhancePrompt_table.
    assert (selected_style userPrompt = Logo) as -> by (apply HL; now split).
    reflexivity.
  - intros Hword.
    assert (selected_style userPrompt = Artistic) as Hstyle
      by (apply HA; exact (Hkey _ Hword)).
    split; [exact Hstyle|]. now rewrite enhancePrompt_table, Hstyle.
  - intros Hlogo Hminimal Hart.
    assert (selected_style userPrompt = Logo) as Hstyle
      by (apply HL; split; [exact Hart | exact (Hkey _ Hlogo)]).
    split; [exact (Hkey _ Hlogo)|]. split; [exact (Hkey _ Hminimal)|].
    split; [exact Hstyle|]. now rewrite enhancePrompt_table, Hstyle.
  - intros detector words Hin Hdetected.
    assert (Regex.regex_test words (toLowerCase userPrompt) = true) as Htest.
    { cbn [In] in Hin.
      repeat (destruct Hin as [[= <- <-] | Hin]; [exact Hdetected|]).
      contradiction. }
    unfold Regex.regex_test in Htest.
    apply existsb_exists in Htest as (word & Hword & Hmatch).
    now exists word.
Qed.

Lemma is_en_iff (lang : json) : is_en lang = true <-> lang = JStr "en".
Proof.
  unfold is_en, Js.strict_eq_str. destruct lang; try (split; discriminate).
  rewrite String.eqb_eq. split; [now intros -> | now intros [= ->]].
Qed.

Lemma lang_or_default_en (language : option json) :
  lang_or_default language = JStr "en" <-> language = Some (JStr "en").
Proof.
  unfold lang_or_default, Js.or_else. split.
  - destruct language as [v|]; [|discriminate].
    destruct (Js.truthy (Some v)); [now intros -> | discriminate].
  - now intros ->.
Qed.

Lemma en_shares_no_fr (c : style) : shares_no_text fr_template (en_template c) = true.
Proof. destruct c; vm_compute; reflexivity. Qed.

Lemma fr_shares_no_en (c : style) : shares_no_text en_template (fr_template c) = true.
Proof. destruct c; vm_compute; reflexivity. Qed.

(** C2. For every prompt and language the enhanced prompt is the style
    prefix, then the prompt as given, then the style suffix, of the
    selected style's templates in the language.  When the language is
    exactly "en" those are the English templates and no French prefix or
    suffix occurs in that style text; for every other value they are the
    French ones and no English prefix or suffix occurs in it.  The language
    the handler passes is "en" only when the request says exactly "en"; a
    request without a language passes "fr". *)
Theorem enhancePrompt_language (userPrompt : string) (lang : json)
    (language : option json) :
  enhancePrompt userPrompt lang
  = fst (template_of lang (selected_style userPrompt)) +:+ userPrompt
    +:+ snd (template_of lang (selected_style userPrompt))
  /\ (lang = JStr "en" ->
        template_of lang (selected_style userPrompt)
        = en_template (selected_style userPrompt)
        /\ shares_no_text fr_template
             (template_of lang (selected_style userPrompt)) = true)
  /\ (lang <> JStr "en" ->
        template_of lang (selected_style userPrompt)
        = fr_template (selected_style userPrompt)
        /\ shares_no_text en_template
             (template_of lang (selected_style userPrompt)) = true)
  /\ (lang_or_default language = JStr "en" <-> language = Some (JStr "en"))
  /\ lang_or_default None = JStr "fr".
Proof.
  split; [apply enhancePrompt_table|].
  unfold template_of.
  destruct (is_en lang) eqn:Hen; (split; [|split; [|split]]).
  - intros _. split; [reflexivity | apply en_shares_no_fr].
  - intros Hne. apply is_en_iff in Hen. contradiction.
  - apply lang_or_default_en.
  - reflexivity.
  - intros ->. discriminate Hen.
  - intros _. split; [reflexivity | apply fr_shares_no_en].
  - apply lang_or_default_en.
  - reflexivity.
Qed.

End EnhancerFacts.

(** The precedence theorem at a runtime that lower-cases ASCII: a prompt
    with "PAINTING", "minimal" and "logo" in it gets the artistic
    template. *)
Lemma enhancePrompt_precedence_witness :
  Enhancer.lowercases_ascii Enhancer.ascii_toLowerCase
  /\ Enhancer.enhancePrompt Enhancer.ascii_toLowerCase
       "Oil PAINTING of a minimal logo" (JStr "en")
     = "Beautiful artistic creation, masterful technique: Oil PAINTING of a minimal logo. Rich details, expressive style, museum quality artwork."
  /\ Enhancer.has_keyword Enhancer.logo_words "Minimal LOGO for a bakery"
  /\ Enhancer.has_keyword Enhancer.minimal_words "Minimal LOGO for a bakery"
  /\ Enhancer.isArtistic Enhancer.ascii_toLowerCase "Minimal LOGO for a bakery"
     = false
  /\ Enhancer.enhancePrompt Enhancer.ascii_toLowerCase
       "Minimal LOGO for a bakery" (JStr "en")
     = "Professional logo design, clean vector style: Minimal LOGO for a bakery. Modern, memorable, scalable design with perfect symmetry.".
Proof.
  split; [exact ascii_lower_law|].
  split.
  { destruct (enhancePrompt_precedence Enhancer.ascii_toLowerCase ascii_lower_law
                "Oil PAINTING of a minimal logo" (JStr "en"))
      as (_ & _ & _ & _ & _ & _ & _ & _ & Hart & Hword & _).
    rewrite Hart; [reflexivity|].
    apply (Hword "painting" "PAINTING" "Oil " " of a minimal logo");
      [simpl; tauto | reflexivity | reflexivity | reflexivity]. }
  assert (Enhancer.has_keyword Enhancer.logo_words "Minimal LOGO for a bakery")
    as Hlogo.
  { exists "logo", "LOGO", "Minimal ", " for a bakery".
    repeat split; simpl; tauto. }
  assert (Enhancer.has_keyword Enhancer.minimal_words "Minimal LOGO for a bakery")
    as Hminimal.
  { exists "minimal", "Minimal", "", " LOGO for a bakery".
    repeat split; simpl; tauto. }
  assert (Enhancer.isArtistic Enhancer.ascii_toLowerCase
            "Minimal LOGO for a bakery" = false) as Hart by reflexivity.
  split; [exact Hlogo|]. split; [exact Hminimal|]. split; [exact Hart|].
  destruct (enhancePrompt_precedence Enhancer.ascii_toLowerCase ascii_lower_law
              "Minimal LOGO for a bakery" (JStr "en"))
    as (_ & _ & _ & _ & _ & _ & _ & _ & _ & _ & _
        & _ & _ & _ & _ & _ & _ & _ & Hboth & _).
  destruct (Hboth Hlogo Hminimal Hart) as (_ & _ & _ & ->). reflexivity.
Defined.

(** ** The edge function *)

Section SplitFacts.
Import JsString.

Lemma split_no_sep (sep : ascii) (s : string) :
  count_char sep s = 0%nat -> split sep s = [s].
Proof.
  induction s as [|c s IH]; simpl; [reflexivity|].
  destruct (Ascii.eqb c sep); [discriminate|].
  intros H. now rewrite (IH H).
Qed.

(** [s.split(sep)[1]] is what stands between the first separator and the
    next one (or the end). *)
Lemma split_second (sep : ascii) (s : string) :
  split sep s !! 1%nat
  = after_first sep s ≫= (fun rest => split sep rest !! 0%nat).
Proof.
  induction s as [|c s IH]; simpl; [reflexivity|].
  destruct (Ascii.eqb c sep); simpl; [reflexivity|].
  rewrite <- IH. now destruct (split sep s).
Qed.

Lemma after_first_count (sep : ascii) (s rest : string) :
  after_first sep s = Some rest ->
  count_char sep s = S (count_char sep rest).
Proof.
  induction s as [|c s IH]; simpl; [discriminate|].
  destruct (Ascii.eqb c sep); [now intros [= ->] | exact IH].
Qed.

Lemma after_first_none (sep : ascii) (s : string) :
  after_first sep s = None -> count_char sep s = 0%nat.
Proof.
  induction s as [|c s IH]; simpl; [reflexivity|].
  destruct (Ascii.eqb c sep); [discriminate | exact IH].
Qed.

(** With exactly one separator, the second piece is everything after it. *)
Lemma split_second_single (sep : ascii) (s : string) :
  count_char sep s = 1%nat -> split sep s !! 1%nat = after_first sep s.
Proof.
  intros Hone. rewrite split_second.
  destruct (after_first sep s) as [rest|] eqn:Hafter; [|reflexivity].
  apply after_first_count in Hafter. simpl.
  rewrite split_no_sep by lia. reflexivity.
Qed.

End SplitFacts.

Section EdgeFacts.
Import JsString EdgeFunction.

Variable toLowerCase : string -> string.

Ltac reduce_exec :=
  unfold do_fetch, read_body, throw in *;
  cbn [mbind mret exec_bind exec_ret fst snd status body success app negb
       from_option id] in *.

(* Case analysis on a scrutinee of the goal that holds no other match. *)
Ltac innermost_case :=
  match goal with
  | |- context [match ?x with _ => _ end] =>
      lazymatch x with
      | context [match _ with _ => _ end] => fail
      | _ => destruct x eqn:?
      end
  | |- context [if ?x then _ else _] =>
      lazymatch x with
      | context [match _ with _ => _ end] => fail
      | _ => destruct x eqn:?
      end
  end.

Ltac handler_cases :=
  unfold handler, try_block, key_present, reply_image_url in *;
  repeat (reduce_exec; simplify_eq; innermost_case);
  reduce_exec; simplify_eq.

Ltac arith_facts :=
  repeat match goal with
  | H : (_ =? _) = true |- _ => apply Z.eqb_eq in H
  | H : (_ =? _) = false |- _ => apply Z.eqb_neq in H
  | H : negb _ = true |- _ => apply negb_true_iff in H
  | H : negb _ = false |- _ => apply negb_false_iff in H
  end; subst.

Ltac join_replies :=
  repeat match goal with
  | H1 : fetch ?e ?c = _, H2 : fetch ?e ?c = _ |- _ =>
      rewrite H1 in H2; simplify_eq
  end.

Lemma response_ok_range (st : Z) :
  response_ok st = true <-> 200 <= st <= 299.
Proof. unfold response_ok. rewrite andb_true_iff, !Z.leb_le. reflexivity. Qed.

Lemma response_ok_outside (st : Z) :
  response_ok st = false <-> st < 200 \/ 299 < st.
Proof.
  unfold response_ok. rewrite andb_false_iff, !Z.leb_gt. reflexivity.
Qed.

Ltac ok_range :=
  repeat match goal with
  | H : response_ok _ = true |- _ => apply response_ok_range in H
  | H : response_ok _ = false |- _ => apply response_ok_outside in H
  end.

(* The image url is a non-empty string, against a hypothesis that it is
   falsy. *)
Ltac bad_url :=
  match goal with
  | Hurl : image_url_of _ = Some (JStr ?u), Hfalsy : Js.truthy _ = false |- _ =>
      rewrite Hurl in Hfalsy; simpl in Hfalsy;
      apply negb_false_iff, String.eqb_eq in Hfalsy; contradiction
  | Hurl : image_url_of _ = Some (JStr ?u),
    Hall : forall url, _ = Some (JStr url) -> url = "",
    Htruthy : Js.truthy (Some (JStr ?u)) = true |- _ =>
      rewrite (Hall u Hurl) in Htruthy; discriminate Htruthy
  end.

Lemma extract_base64_defined (url : string) :
  startsWith url "data:" = false \/ (1 <= count_char "," url)%nat ->
  exists imageBase64, extract_base64 url = Some imageBase64.
Proof.
  intros H. unfold extract_base64.
  destruct (startsWith url "data:"); [|now exists url].
  destruct H as [H | H]; [discriminate|].
  rewrite split_second.
  destruct (after_first "," url) as [rest|] eqn:Hafter.
  - cbn. destruct rest as [|c rest]; cbn; [now eexists|].
    destruct (Ascii.eqb c ","); [now eexists|].
    destruct (split "," rest); now eexists.
  - apply after_first_none in Hafter. lia.
Qed.

(** What [extract_base64] does right: the example of the specification, a
    bare string, and a data URI with a single comma. *)
Lemma extract_base64_cases :
  extract_base64 "data:image/png;base64,AAA=" = Some "AAA="
  /\ (forall url : string,
        startsWith url "data:" = false -> extract_base64 url = Some url)
  /\ (forall url : string,
        startsWith url "data:" = true -> count_char "," url = 1%nat ->
        extract_base64 url = after_first "," url)
  /\ (forall url : string,
        startsWith url "data:" = true ->
        extract_base64 url
        = after_first "," url ≫= (fun rest => split "," rest !! 0%nat))
  /\ (forall url : string,
        startsWith url "data:" = false \/ (1 <= count_char "," url)%nat ->
        exists imageBase64, extract_base64 url = Some imageBase64).
Proof.
  repeat split.
  - intros url H. unfold extract_base64. now rewrite H.
  - intros url H Hone. unfold extract_base64. rewrite H.
    now apply split_second_single.
  - intros url H. unfold extract_base64. rewrite H. apply split_second.
  - apply extract_base64_defined.
Qed.

(** C3, at the inputs where the code leaves the claim.  For a data URI
    with a second comma the claim promises everything after the first
    comma; the handler answers with the piece between the first and the
    second comma only.  And for a string that starts with "data:" and has
    no comma at all, the same [split(',')[1]] is [undefined]: the handler
    answers 200 with success:true and no imageBase64 field. *)
Theorem extract_base64_stops_at_second_comma :
  startsWith "data:image/svg+xml,<svg viewBox='0,0,8,8'/>" "data:" = true
  /\ after_first "," "data:image/svg+xml,<svg viewBox='0,0,8,8'/>"
     = Some "<svg viewBox='0,0,8,8'/>"
  /\ extract_base64 "data:image/svg+xml,<svg viewBox='0,0,8,8'/>"
     = Some "<svg viewBox='0"
  /\ fst (handler toLowerCase
            (env_answering (JStr "data:image/svg+xml,<svg viewBox='0,0,8,8'/>"))
            (post_prompt "a round logo"))
     = {| status := 200; body := Some (SuccessBody (Some "<svg viewBox='0")) |}
  /\ extract_base64 "data:image/png" = None
  /\ fst (handler toLowerCase (env_answering (JStr "data:image/png"))
            (post_prompt "a cat"))
     = {| status := 200; body := Some (SuccessBody None) |}.
Proof. repeat split. Qed.

(** The body of the answer to a reply that carries a usable image url. *)
Lemma handler_success_body (env : Env) (req : Request) (call : FetchCall)
    (st : Z) (data : json) (url : string) :
  String.eqb (method req) "OPTIONS" = false ->
  snd (handler toLowerCase env req) = [call] ->
  fetch env call = Replied st (Some data) ->
  response_ok st = true ->
  reply_image_url (Replied st (Some data)) = Some (JStr url) ->
  url <> "" ->
  fst (handler toLowerCase env req)
  = {| status := 200; body := Some (SuccessBody (extract_base64 url)) |}.
Proof.
  intros Hmethod.
  handler_cases; intros; simplify_eq; join_replies; arith_facts;
    try discriminate; try congruence; try reflexivity.
  all: exfalso; bad_url.
Qed.


End EdgeFacts.



(** ** The configuration hook *)

Section HookFacts.
Import WebsiteHook.

Variable restaurantId : option string.
Variable store : StoreOp -> StoreReply.

#[local] Abbreviation saveConfig := (saveConfig restaurantId store).
#[local] Abbreviation loadWebsiteConfig := (loadWebsiteConfig restaurantId store).

Lemma eqb_empty_false (rid : string) : rid <> "" -> String.eqb rid "" = false.
Proof. intros H. now apply String.eqb_neq. Qed.

Lemma spread_lookup_kept (cfg updates : gmap string value) (k : string) :
  updates !! k = None -> spread cfg updates !! k = cfg !! k.
Proof. intros H. unfold spread. now apply lookup_union_r. Qed.

Lemma spread_lookup_updated (cfg updates : gmap string value) (k : string)
    (v : value) :
  updates !! k = Some v -> spread cfg updates !! k = Some v.
Proof. intros H. unfold spread. now apply lookup_union_Some_l. Qed.

(** The three ways [saveConfig] goes once its guard is passed. *)
Lemma saveConfig_update_path (updates : gmap string value) (st : HookState)
    (rid : string) (cfg : gmap string value) :
  restaurantId = Some rid -> rid <> "" -> config st = Some cfg ->
  truthy (cfg !! "id") = true ->
  saveConfig updates st
  = match store (Update updates (read cfg "id")) with
    | Failed =>
        save_failed (setSaving true st) [Sent (Update updates (read cfg "id"))]
    | Answered _ =>
        save_succeeded (setSaving true st)
          [Sent (Update updates (read cfg "id"))] (spread cfg updates)
    end.
Proof.
  intros -> Hrid Hcfg Hid. unfold WebsiteHook.saveConfig.
  now rewrite Hcfg, (eqb_empty_false rid Hrid), Hid.
Qed.

Lemma saveConfig_insert_path (updates : gmap string value) (st : HookState)
    (rid : string) (cfg : gmap string value) :
  restaurantId = Some rid -> rid <> "" -> config st = Some cfg ->
  truthy (cfg !! "id") = false ->
  saveConfig updates st
  = match store (InsertSelectSingle
                   (<["restaurant_id" := VStr rid]> (spread cfg updates))) with
    | Answered (Some data) =>
        save_succeeded (setSaving true st)
          [Sent (InsertSelectSingle
                   (<["restaurant_id" := VStr rid]> (spread cfg updates)))]
          (<["id" := read data "id"]> (spread cfg updates))
    | _ =>
        save_failed (setSaving true st)
          [Sent (InsertSelectSingle
                   (<["restaurant_id" := VStr rid]> (spread cfg updates)))]
    end.
Proof.
  intros -> Hrid Hcfg Hid. unfold WebsiteHook.saveConfig.
  rewrite Hcfg, (eqb_empty_false rid Hrid), Hid.
  now destruct (store _) as [|[data|]].
Qed.

Lemma saveConfig_guard_path (updates : gmap string value) (st : HookState) :
  no_restaurant restaurantId = true \/ config st = None ->
  saveConfig updates st = (st, [], false).
Proof.
  unfold WebsiteHook.saveConfig, no_restaurant.
  intros [H | H].
  - destruct restaurantId as [rid|]; [rewrite H|]; now destruct (config st).
  - rewrite H. now destruct restaurantId.
Qed.

(** One of the three paths is always taken. *)
Lemma saveConfig_paths (updates : gmap string value) (st : HookState) :
  (no_restaurant restaurantId = true \/ config st = None)
  \/ exists rid cfg,
       restaurantId = Some rid /\ rid <> "" /\ config st = Some cfg.
Proof.
  unfold no_restaurant. destruct restaurantId as [rid|]; [|now left; left].
  destruct (String.eqb rid "") eqn:Hrid; [now left; left|].
  destruct (config st) as [cfg|]; [|now left; right].
  right. exists rid, cfg. repeat split. now apply String.eqb_neq.
Qed.

(** C5, as amended.  With a session (a restaurant id and a loaded
    configuration), [saveConfig] sends exactly one request, an insert or an
    update, never a delete and never an upsert.  When no row id is known it
    is a plain insert of the merged configuration under the hook's
    restaurant id, sent without looking at what the store holds; when the
    store answers with a row the in-memory configuration carries that row's
    id afterwards, and otherwise it is as before.  When a row id is known
    it is an update of the given fields against that row id; the in-memory
    id is the same afterwards whenever the partial update has no [id]
    field or has the same [id], and whenever the store fails; it is the
    update's [id] when the update has one and the store accepts. *)
Theorem saveConfig_insert_or_update (updates : gmap string value) (st : HookState) :
  Forall (fun op => is_delete op = false) (sent (saveConfig updates st).1.2)
  /\ (length (sent (saveConfig updates st).1.2) <= 1)%nat
  /\ Forall (fun op => exists payload,
                         op = InsertSelectSingle payload
                         \/ exists id, op = Update payload id)
            (sent (saveConfig updates st).1.2)
  /\ (forall rid cfg,
        restaurantId = Some rid -> rid <> "" -> config st = Some cfg ->
        truthy (cfg !! "id") = false ->
        sent (saveConfig updates st).1.2
        = [InsertSelectSingle
             (<["restaurant_id" := VStr rid]> (spread cfg updates))]
        /\ (<["restaurant_id" := VStr rid]> (spread cfg updates))
             !! "restaurant_id" = Some (VStr rid)
        /\ (forall row,
              store (InsertSelectSingle
                       (<["restaurant_id" := VStr rid]> (spread cfg updates)))
              = Answered (Some row) ->
              (saveConfig updates st).2 = true
              /\ config_id (saveConfig updates st).1.1 = Some (read row "id")
              /\ (forall i, row !! "id" = Some (VStr i) ->
                    config_id (saveConfig updates st).1.1 = Some (VStr i)))
        /\ ((forall row,
               store (InsertSelectSingle
                        (<["restaurant_id" := VStr rid]> (spread cfg updates)))
               <> Answered (Some row)) ->
              (saveConfig updates st).2 = false
              /\ config_id (saveConfig updates st).1.1 = cfg !! "id"))
  /\ (forall rid cfg,
        restaurantId = Some rid -> rid <> "" -> config st = Some cfg ->
        truthy (cfg !! "id") = true ->
        sent (saveConfig updates st).1.2 = [Update updates (read cfg "id")]
        /\ (updates !! "id" = None \/ updates !! "id" = cfg !! "id" ->
              config_id (saveConfig updates st).1.1 = cfg !! "id")
        /\ (store (Update updates (read cfg "id")) = Failed ->
              (saveConfig updates st).2 = false
              /\ config_id (saveConfig updates st).1.1 = cfg !! "id")
        /\ (forall id,
              updates !! "id" = Some id ->
              store (Update updates (read cfg "id")) <> Failed ->
              (saveConfig updates st).2 = true
              /\ config_id (saveConfig updates st).1.1 = Some id)).
Proof.
  split; [|split; [|split; [|split]]].
  - destruct (saveConfig_paths updates st)
      as [Hguard | (rid & cfg & Hrid & Hne & Hcfg)].
    + rewrite saveConfig_guard_path by exact Hguard. constructor.
    + destruct (truthy (cfg !! "id")) eqn:Hid.
      * rewrite (saveConfig_update_path updates st rid cfg) by assumption.
        destruct (store _); repeat constructor.
      * rewrite (saveConfig_insert_path updates st rid cfg) by assumption.
        destruct (store _) as [|[row|]]; repeat constructor.
  - destruct (saveConfig_paths updates st)
      as [Hguard | (rid & cfg & Hrid & Hne & Hcfg)].
    + rewrite saveConfig_guard_path by exact Hguard. cbn. lia.
    + destruct (truthy (cfg !! "id")) eqn:Hid.
      * rewrite (saveConfig_update_path updates st rid cfg) by assumption.
        destruct (store _); cbn; lia.
      * rewrite (saveConfig_insert_path updates st rid cfg) by assumption.
        destruct (store _) as [|[row|]]; cbn; lia.
  - destruct (saveConfig_paths updates st)
      as [Hguard | (rid & cfg & Hrid & Hne & Hcfg)].
    + rewrite saveConfig_guard_path by exact Hguard. constructor.
    + destruct (truthy (cfg !! "id")) eqn:Hid.
      * rewrite (saveConfig_update_path updates st rid cfg) by assumption.
        destruct (store _); cbn; repeat constructor; eauto.
      * rewrite (saveConfig_insert_path updates st rid cfg) by assumption.
        destruct (store _) as [|[row|]]; cbn; repeat constructor; eauto.
  - intros rid cfg Hrid Hne Hcfg Hid.
    rewrite (saveConfig_insert_path updates st rid cfg) by assumption.
    split; [|split; [|split]].
    + now destruct (store _) as [|[row|]].
    + apply lookup_insert_eq.
    + intros row ->. unfold config_id. cbn.
      rewrite lookup_insert_eq.
      split; [reflexivity|]. split; [reflexivity|].
      intros i Hi. unfold read. now rewrite Hi.
    + intros Hnone. unfold config_id.
      destruct (store _) as [|[row|]]; cbn; rewrite ?Hcfg;
        try (split; reflexivity).
      now destruct (Hnone row).
  - intros rid cfg Hrid Hne Hcfg Hid.
    rewrite (saveConfig_update_path updates st rid cfg) by assumption.
    split; [now destruct (store _)|]. split; [|split].
    + intros Hsame. unfold config_id.
      destruct (store _); cbn; [now rewrite Hcfg|].
      destruct Hsame as [Hnoid | Hsame].
      * now apply spread_lookup_kept.
      * destruct (updates !! "id") as [v|] eqn:Hv.
        -- rewrite (spread_lookup_updated cfg updates "id" v Hv). exact Hsame.
        -- now apply spread_lookup_kept.
    + intros ->. unfold config_id. cbn. now rewrite Hcfg.
    + intros id Hv Hok. unfold config_id.
      destruct (store _); [contradiction|]. cbn.
      split; [reflexivity|]. now apply spread_lookup_updated.
Qed.

(** C9, as amended.  [saveConfig] returns false and leaves the in-memory
    configuration as it was whenever the store fails (and whenever it
    returns false at all).  Whenever the store accepts the request, it
    returns true and the in-memory configuration is the previous one merged
    with the updates, on the insert path with [id] set to the id of the row
    the store returned; and it returns true in no other case. *)
Theorem saveConfig_atomic (updates : gmap string value) (st : HookState) :
  ((saveConfig updates st).2 = false ->
     config (saveConfig updates st).1.1 = config st)
  /\ (forall rid cfg,
        restaurantId = Some rid -> rid <> "" -> config st = Some cfg ->
        (truthy (cfg !! "id") = true ->
           (store (Update updates (read cfg "id")) = Failed ->
              (saveConfig updates st).2 = false
              /\ config (saveConfig updates st).1.1 = config st)
           /\ ((saveConfig updates st).2 = true ->
              store (Update updates (read cfg "id")) <> Failed
              /\ config (saveConfig updates st).1.1
                 = Some (spread cfg updates))
           /\ (forall data,
                 store (Update updates (read cfg "id")) = Answered data ->
                 (saveConfig updates st).2 = true
                 /\ config (saveConfig updates st).1.1
                    = Some (spread cfg updates)))
        /\ (truthy (cfg !! "id") = false ->
           (store (InsertSelectSingle
                     (<["restaurant_id" := VStr rid]> (spread cfg updates)))
            = Failed ->
              (saveConfig updates st).2 = false
              /\ config (saveConfig updates st).1.1 = config st)
           /\ ((saveConfig updates st).2 = true ->
              exists row,
                store (InsertSelectSingle
                         (<["restaurant_id" := VStr rid]> (spread cfg updates)))
                = Answered (Some row)
                /\ config (saveConfig updates st).1.1
                   = Some (<["id" := read row "id"]> (spread cfg updates)))
           /\ (forall row,
                 store (InsertSelectSingle
                          (<["restaurant_id" := VStr rid]> (spread cfg updates)))
                 = Answered (Some row) ->
                 (saveConfig updates st).2 = true
                 /\ config (saveConfig updates st).1.1
                    = Some (<["id" := read row "id"]> (spread cfg updates)))
           /\ (store (InsertSelectSingle
                        (<["restaurant_id" := VStr rid]> (spread cfg updates)))
               = Answered None ->
                 (saveConfig updates st).2 = false
                 /\ config (saveConfig updates st).1.1 = config st)))
  /\ ((saveConfig updates st).2 = true ->
        exists rid cfg,
          restaurantId = Some rid /\ rid <> "" /\ config st = Some cfg
          /\ sent (saveConfig updates st).1.2 <> []).
Proof.
  split; [|split].
  - destruct (saveConfig_paths updates st)
      as [Hguard | (rid & cfg & Hrid & Hne & Hcfg)].
    + now rewrite saveConfig_guard_path by exact Hguard.
    + destruct (truthy (cfg !! "id")) eqn:Hid.
      * rewrite (saveConfig_update_path updates st rid cfg) by assumption.
        now destruct (store _).
      * rewrite (saveConfig_insert_path updates st rid cfg) by assumption.
        now destruct (store _) as [|[row|]].
  - intros rid cfg Hrid Hne Hcfg. split; intros Hid.
    + rewrite (saveConfig_update_path updates st rid cfg) by assumption.
      destruct (store _); cbn; repeat split; try congruence; try discriminate.
    + rewrite (saveConfig_insert_path updates st rid cfg) by assumption.
      destruct (store _) as [|[row|]]; cbn.
      * repeat split; try congruence; try discriminate.
      * split; [discriminate|]. split; [intros _; now exists row|].
        split; [|discriminate].
        intros row' [= <-]. now split.
      * repeat split; try congruence; try discriminate.
  - destruct (saveConfig_paths updates st)
      as [Hguard | (rid & cfg & Hrid & Hne & Hcfg)].
    + rewrite saveConfig_guard_path by exact Hguard. discriminate.
    + intros _. exists rid, cfg. repeat split; try assumption.
      destruct (truthy (cfg !! "id")) eqn:Hid.
      * rewrite (saveConfig_update_path updates st rid cfg) by assumption.
        now destruct (store _).
      * rewrite (saveConfig_insert_path updates st rid cfg) by assumption.
        now destruct (store _) as [|[row|]].
Qed.

(** C10.  [saveConfig] returns false, sends nothing and changes nothing
    when the restaurant id is null or no configuration is loaded, and
    [loadWebsiteConfig] sends nothing and changes nothing when the
    restaurant id is null. *)
Theorem guards_are_silent (updates : gmap string value) (st : HookState) :
  (restaurantId = None \/ config st = None ->
     saveConfig updates st = (st, [], false))
  /\ WebsiteHook.loadWebsiteConfig None store st = (st, []).
Proof.
  split; [|reflexivity].
  intros [H | H]; apply saveConfig_guard_path; [left; now rewrite H | now right].
Qed.

Lemma saveConfig_success_field (updates : gmap string value) (st : HookState)
    (k : string) (v : value) :
  k <> "id" -> updates !! k = Some v ->
  (saveConfig updates st).2 = true ->
  exists c, config (saveConfig updates st).1.1 = Some c /\ c !! k = Some v.
Proof.
  intros Hk Hv.
  destruct (saveConfig_paths updates st)
    as [Hguard | (rid & cfg & Hrid & Hne & Hcfg)].
  - now rewrite saveConfig_guard_path by exact Hguard.
  - destruct (truthy (cfg !! "id")) eqn:Hid.
    + rewrite (saveConfig_update_path updates st rid cfg) by assumption.
      destruct (store _); cbn; [discriminate|]. intros _.
      exists (spread cfg updates). split; [reflexivity|].
      now apply spread_lookup_updated.
    + rewrite (saveConfig_insert_path updates st rid cfg) by assumption.
      destruct (store _) as [|[row|]]; cbn; try discriminate. intros _.
      eexists. split; [reflexivity|].
      rewrite lookup_insert_ne by congruence.
      now apply spread_lookup_updated.
Qed.

(** C7.  [publishWebsite] is [saveConfig] of [is_published: true] and
    [unpublishWebsite] is [saveConfig] of [is_published: false]: the same
    state, the same requests and toasts, the same boolean, for every state
    and store.  When they return true the in-memory configuration has the
    flag they set. *)
Theorem publish_is_save (st : HookState) :
  publishWebsite restaurantId store st
  = saveConfig {[ "is_published" := VBool true ]} st
  /\ unpublishWebsite restaurantId store st
     = saveConfig {[ "is_published" := VBool false ]} st
  /\ ((publishWebsite restaurantId store st).2 = true ->
      exists c, config (publishWebsite restaurantId store st).1.1 = Some c
                /\ c !! "is_published" = Some (VBool true))
  /\ ((unpublishWebsite restaurantId store st).2 = true ->
      exists c, config (unpublishWebsite restaurantId store st).1.1 = Some c
                /\ c !! "is_published" = Some (VBool false)).
Proof.
  unfold publishWebsite, unpublishWebsite.
  split; [reflexivity|]. split; [reflexivity|].
  split; apply saveConfig_success_field;
    solve [discriminate | apply lookup_singleton_eq].
Qed.

Lemma default_has_column_defaults :
  Forall (fun kv : string * value => defaultConfig !! kv.1 = Some kv.2)
         column_defaults.
Proof. repeat (constructor; [vm_compute; reflexivity|]). constructor. Qed.

Lemma default_has_null_columns :
  Forall (fun k : string => defaultConfig !! k = Some VNull) nullable_columns.
Proof. repeat (constructor; [vm_compute; reflexivity|]). constructor. Qed.

Lemma default_has_no_id : defaultConfig !! "id" = None.
Proof. vm_compute. reflexivity. Qed.

Lemma default_is_unpublished : defaultConfig !! "is_published" = Some (VBool false).
Proof. vm_compute. reflexivity. Qed.

(** C6.  [loadWebsiteConfig] sends at most one request, a select of at
    most one row ([maybeSingle]) for the restaurant id, and never a write.
    When the store answers with no row, nothing is logged or toasted, and
    the in-memory configuration becomes the default one: the given
    restaurant id, no id, not published, and for every other field the
    default of [defaultConfig], which is the column default of the table
    (or null where the column has none). *)
Theorem loadWebsiteConfig_default (st : HookState) :
  (sent (loadWebsiteConfig st).2 = []
   \/ exists rid, restaurantId = Some rid
                  /\ sent (loadWebsiteConfig st).2 = [SelectMaybeSingle rid])
  /\ Forall (fun op => is_write op = false) (sent (loadWebsiteConfig st).2)
  /\ (forall rid,
        restaurantId = Some rid -> rid <> "" ->
        store (SelectMaybeSingle rid) = Answered None ->
        loadWebsiteConfig st
        = ({| config := Some (<["restaurant_id" := VStr rid]> defaultConfig);
              loading := false; saving := saving st |},
           [Sent (SelectMaybeSingle rid)])
        /\ (<["restaurant_id" := VStr rid]> defaultConfig) !! "restaurant_id"
           = Some (VStr rid)
        /\ (<["restaurant_id" := VStr rid]> defaultConfig) !! "id" = None
        /\ (<["restaurant_id" := VStr rid]> defaultConfig) !! "is_published"
           = Some (VBool false)
        /\ (forall k, k <> "restaurant_id" ->
              (<["restaurant_id" := VStr rid]> defaultConfig) !! k
              = defaultConfig !! k))
  /\ Forall (fun kv : string * value => defaultConfig !! kv.1 = Some kv.2)
            column_defaults
  /\ Forall (fun k : string => defaultConfig !! k = Some VNull) nullable_columns.
Proof.
  repeat match goal with |- _ /\ _ => split end.
  - unfold WebsiteHook.loadWebsiteConfig.
    destruct restaurantId as [rid|]; [|now left].
    destruct (String.eqb rid ""); [now left|].
    right. exists rid. split; [reflexivity|].
    now destruct (store _) as [|[row|]].
  - unfold WebsiteHook.loadWebsiteConfig.
    destruct restaurantId as [rid|]; [|constructor].
    destruct (String.eqb rid ""); [constructor|].
    destruct (store _) as [|[row|]]; repeat constructor.
  - intros rid Hrid Hne Hnone.
    repeat match goal with |- _ /\ _ => split end.
    + unfold WebsiteHook.loadWebsiteConfig.
      now rewrite Hrid, (eqb_empty_false rid Hne), Hnone.
    + apply lookup_insert_eq.
    + rewrite lookup_insert_ne by discriminate. apply default_has_no_id.
    + rewrite lookup_insert_ne by discriminate. apply default_is_unpublished.
    + intros k Hk. now rewrite lookup_insert_ne by congruence.
  - apply default_has_column_defaults.
  - apply default_has_null_columns.
Qed.

End HookFacts.

(** C5 as stated fails at two inputs.  An update whose fields include
    another [id] changes the in-memory id.  And the first save is not an
    upsert keyed by the restaurant id: with a store that already has a row
    for the restaurant, a hook whose configuration has no id yet sends a
    plain insert under the same restaurant id and takes the id of the
    second row. *)
Lemma saveConfig_replaces_id_and_is_no_upsert :
  WebsiteHook.config_id (WebsiteHook.state_with WebsiteHook.loaded_config)
  = Some (VStr "row-1")
  /\ (WebsiteHook.saveConfig (Some "r-1") WebsiteHook.accepting_store
        {[ "id" := VStr "row-2" ]}
        (WebsiteHook.state_with WebsiteHook.loaded_config)).2 = true
  /\ WebsiteHook.sent
       (WebsiteHook.saveConfig (Some "r-1") WebsiteHook.accepting_store
          {[ "id" := VStr "row-2" ]}
          (WebsiteHook.state_with WebsiteHook.loaded_config)).1.2
     = [WebsiteHook.Update {[ "id" := VStr "row-2" ]} (VStr "row-1")]
  /\ WebsiteHook.config_id
       (WebsiteHook.saveConfig (Some "r-1") WebsiteHook.accepting_store
          {[ "id" := VStr "row-2" ]}
          (WebsiteHook.state_with WebsiteHook.loaded_config)).1.1
     = Some (VStr "row-2")
  /\ WebsiteHook.store_with_row (WebsiteHook.SelectMaybeSingle "r-1")
     = WebsiteHook.Answered (Some WebsiteHook.loaded_config)
  /\ WebsiteHook.sent
       (WebsiteHook.saveConfig (Some "r-1") WebsiteHook.store_with_row ∅
          (WebsiteHook.state_with WebsiteHook.blank_config)).1.2
     = [WebsiteHook.InsertSelectSingle
          (<["restaurant_id" := VStr "r-1"]>
             (WebsiteHook.spread WebsiteHook.blank_config ∅))]
  /\ (WebsiteHook.saveConfig (Some "r-1") WebsiteHook.store_with_row ∅
        (WebsiteHook.state_with WebsiteHook.blank_config)).2 = true
  /\ WebsiteHook.config_id
       (WebsiteHook.saveConfig (Some "r-1") WebsiteHook.store_with_row ∅
          (WebsiteHook.state_with WebsiteHook.blank_config)).1.1
     = Some (VStr "row-2").
Proof.
  assert (WebsiteHook.loaded_config !! "id" = Some (VStr "row-1")) as Hid
    by apply lookup_insert_eq.
  assert (WebsiteHook.blank_config !! "id" = None) as Hnoid
    by (vm_compute; reflexivity).
  rewrite (saveConfig_update_path (Some "r-1") WebsiteHook.accepting_store
             {[ "id" := VStr "row-2" ]}
             (WebsiteHook.state_with WebsiteHook.loaded_config)
             "r-1" WebsiteHook.loaded_config);
    [| reflexivity | discriminate | reflexivity | now rewrite Hid].
  rewrite (saveConfig_insert_path (Some "r-1") WebsiteHook.store_with_row ∅
             (WebsiteHook.state_with WebsiteHook.blank_config)
             "r-1" WebsiteHook.blank_config);
    [| reflexivity | discriminate | reflexivity | now rewrite Hnoid].
  unfold WebsiteHook.config_id, WebsiteHook.read. rewrite Hid.
  cbn [WebsiteHook.accepting_store WebsiteHook.store_with_row
       WebsiteHook.save_succeeded
       WebsiteHook.setSaving WebsiteHook.setConfig WebsiteHook.state_with
       WebsiteHook.config WebsiteHook.sent fst snd app omap list_omap
       mbind option_bind from_option id].
  rewrite !lookup_insert_eq.
  cbn [from_option id].
  repeat split.
Qed.

(** C9 as stated fails on the first save: the stored configuration is not
    the merge alone, it also has the id of the new row. *)
Lemma saveConfig_first_save_adds_id :
  (WebsiteHook.saveConfig (Some "r-1") WebsiteHook.accepting_store ∅
     (WebsiteHook.state_with WebsiteHook.blank_config)).2 = true
  /\ WebsiteHook.spread WebsiteHook.blank_config ∅ = WebsiteHook.blank_config
  /\ WebsiteHook.config
       (WebsiteHook.saveConfig (Some "r-1") WebsiteHook.accepting_store ∅
          (WebsiteHook.state_with WebsiteHook.blank_config)).1.1
     = Some (<["id" := VStr "row-1"]> WebsiteHook.blank_config)
  /\ WebsiteHook.config
       (WebsiteHook.saveConfig (Some "r-1") WebsiteHook.accepting_store ∅
          (WebsiteHook.state_with WebsiteHook.blank_config)).1.1
     <> Some (WebsiteHook.spread WebsiteHook.blank_config ∅).
Proof.
  assert (WebsiteHook.blank_config !! "id" = None) as Hid
    by (vm_compute; reflexivity).
  assert (WebsiteHook.spread WebsiteHook.blank_config ∅
          = WebsiteHook.blank_config) as Hmerge
    by (unfold WebsiteHook.spread; apply (left_id_L ∅ (∪))).
  rewrite (saveConfig_insert_path (Some "r-1") WebsiteHook.accepting_store ∅
             (WebsiteHook.state_with WebsiteHook.blank_config)
             "r-1" WebsiteHook.blank_config);
    [| reflexivity | discriminate | reflexivity | now rewrite Hid].
  cbn [WebsiteHook.accepting_store WebsiteHook.save_succeeded
       WebsiteHook.setSaving WebsiteHook.setConfig WebsiteHook.state_with
       WebsiteHook.config fst snd].
  unfold WebsiteHook.read. rewrite lookup_insert_eq, Hmerge.
  cbn [from_option id].
  repeat split.
  intros H.
  apply (f_equal (fun o : option (gmap string value) =>
                    o ≫= (fun c => c !! "id"))) in H.
  cbn [mbind option_bind] in H.
  rewrite lookup_insert_eq, Hid in H. discriminate H.
Qed.

(** ** The public site *)

Section PublicSiteFacts.
Import PublicSite.

Lemma get_public_website_spec (db : database) (sub : string) (shown : WebsiteData) :
  shown ∈ get_public_website db sub
  <-> exists rw r, servable db sub rw r /\ shown = joined rw r.
Proof.
  unfold get_public_website, servable. rewrite list_elem_of_bind. split.
  - intros (rw & Hshown & Hrw). apply list_elem_of_bind in Hshown.
    destruct Hshown as (r & Hshown & Hr).
    destruct (String.eqb (r_id r) (rw_restaurant_id rw)) eqn:Hjoin;
      [|cbn in Hshown; now apply elem_of_nil in Hshown].
    destruct (rw_subdomain rw) as [s|] eqn:Hsub;
      [|cbn in Hshown; now apply elem_of_nil in Hshown].
    cbn in Hshown.
    destruct (String.eqb s sub) eqn:Hs;
      [|cbn in Hshown; now apply elem_of_nil in Hshown].
    destruct (rw_is_published rw) eqn:Hpub;
      [|cbn in Hshown; now apply elem_of_nil in Hshown].
    destruct (r_is_active r) as [[|]|] eqn:Hact;
      cbn in Hshown; try (now apply elem_of_nil in Hshown).
    apply list_elem_of_singleton in Hshown.
    apply String.eqb_eq in Hjoin, Hs. subst s.
    exists rw, r. repeat split; assumption.
  - intros (rw & r & (Hrw & Hr & Hjoin & Hsub & Hpub & Hact) & ->).
    exists rw. split; [|exact Hrw].
    apply list_elem_of_bind. exists r. split; [|exact Hr].
    rewrite Hjoin, Hsub, Hpub, Hact. cbn.
    rewrite !String.eqb_refl. cbn. apply list_elem_of_singleton. reflexivity.
Qed.

(** C8.  Whatever the tables hold, however the remote call ends and
    whatever an earlier run left in the page's state, a record that the
    page holds after [loadWebsite] is one it held before or is the join of
    a website row with the requested subdomain and [is_published] true with
    its restaurant row with [is_active] true; on a fresh page it is always
    the latter, and only such a record is rendered.  When every website row
    with the requested subdomain is unpublished or belongs to an inactive
    restaurant (in particular when there is none), no record is stored (a
    fresh page holds none) and the page ends in the 404 block; when the
    call itself succeeded, with the text of the not-found case. *)
Theorem public_site_only_published (db : database) (outcome : rpc_outcome)
    (subdomain : option string) (st : PageState) :
  (forall shown,
     data (loadWebsite db outcome subdomain st) = Some shown ->
     data st = Some shown
     \/ exists sub rw r,
          subdomain = Some sub /\ servable db sub rw r /\ shown = joined rw r)
  /\ (forall shown,
        data (loadWebsite db outcome subdomain initial) = Some shown
        \/ render (loadWebsite db outcome subdomain initial) = Site shown ->
        exists sub rw r,
          subdomain = Some sub /\ servable db sub rw r /\ shown = joined rw r)
  /\ ((forall sub rw r,
         subdomain = Some sub ->
         rw ∈ restaurant_websites db -> r ∈ restaurants db ->
         r_id r = rw_restaurant_id rw ->
         rw_subdomain rw = Some sub ->
         rw_is_published rw = false \/ r_is_active r <> Some true) ->
      data (loadWebsite db outcome subdomain st) = data st
      /\ data (loadWebsite db outcome subdomain initial) = None
      /\ (exists text, render (loadWebsite db outcome subdomain st) = NotFound text)
      /\ (outcome = RpcOk ->
          render (loadWebsite db outcome subdomain st) = NotFound "Site non trouvé")).
Proof.
  assert (forall before shown,
            data (loadWebsite db outcome subdomain before) = Some shown ->
            data before = Some shown
            \/ exists sub rw r,
                 subdomain = Some sub /\ servable db sub rw r
                 /\ shown = joined rw r) as Hheld.
  { intros before shown Hdata. unfold loadWebsite in Hdata.
    destruct subdomain as [sub|]; [|now left].
    destruct (String.eqb sub ""); [now left|].
    destruct outcome; [now left|].
    destruct (get_public_website db sub) as [|first rest] eqn:Hrows;
      [now left|].
    cbn in Hdata. injection Hdata as ->. right.
    assert (shown ∈ get_public_website db sub) as Hin
      by (rewrite Hrows; apply list_elem_of_here).
    apply get_public_website_spec in Hin as (rw & r & Hserv & ->).
    now exists sub, rw, r. }
  split; [exact (Hheld st)|]. split.
  - intros shown Hshown.
    assert (data (loadWebsite db outcome subdomain initial) = Some shown)
      as Hdata.
    { destruct Hshown as [H | H]; [exact H|].
      unfold loadWebsite, render in *.
      destruct subdomain as [sub|]; [|discriminate].
      destruct (String.eqb sub ""); [discriminate|].
      destruct outcome; [discriminate|].
      destruct (get_public_website db sub); [discriminate|].
      cbn in *. congruence. }
    destruct (Hheld initial shown Hdata) as [Hstale | Hserv];
      [discriminate | exact Hserv].
  - intros Hnone.
    assert (forall sub, subdomain = Some sub -> get_public_website db sub = [])
      as Hempty.
    { intros sub Hsub.
      destruct (get_public_website db sub) as [|first rest] eqn:Hrows;
        [reflexivity|].
      assert (first ∈ get_public_website db sub) as Hin
        by (rewrite Hrows; apply list_elem_of_here).
      apply get_public_website_spec in Hin
        as (rw & r & (Hrw & Hr & Hjoin & Hs & Hpub & Hact) & _).
      destruct (Hnone sub rw r Hsub Hrw Hr Hjoin Hs) as [H | H];
        [congruence | contradiction]. }
    unfold loadWebsite, render.
    destruct subdomain as [sub|]; [|cbn; eauto].
    destruct (String.eqb sub ""); [cbn; eauto|].
    destruct outcome; [cbn; repeat split; eauto; discriminate|].
    rewrite (Hempty sub eq_refl). cbn. eauto.
Qed.

End PublicSiteFacts.

(** ** Subdomain generation *)

Section SubdomainFacts.
Import JsString PublicSite Subdomain.

Variable unaccent : string -> string.

Lemma slug_char_not_dash (c : ascii) : is_slug_char c = true -> is_dash c = false.
Proof.
  unfold is_dash. destruct (Ascii.eqb_spec c "-") as [->|]; [|reflexivity].
  vm_compute. discriminate.
Qed.

Lemma slug_char_not_upper (c : ascii) : is_slug_char c = true -> is_upper c = false.
Proof.
  unfold is_slug_char, is_lower, is_digit, is_upper.
  destruct (65 <=? nat_of_ascii c)%nat eqn:H1;
    destruct (nat_of_ascii c <=? 90)%nat eqn:H2; try reflexivity.
  apply Nat.leb_le in H1, H2. intros H.
  apply orb_true_iff in H. rewrite !andb_true_iff, !Nat.leb_le in H. lia.
Qed.

Lemma slug_or_dash_lower (c : ascii) : slug_or_dash c = true -> lower_char c = c.
Proof.
  unfold slug_or_dash, lower_char. intros H. apply orb_true_iff in H.
  destruct H as [H | H].
  - now rewrite (slug_char_not_upper c H).
  - unfold is_dash in H. apply Ascii.eqb_eq in H. now subst c.
Qed.

Lemma replace_runs_chars (in_run : bool) (s : string) :
  all_chars slug_or_dash (replace_runs in_run s) = true.
Proof.
  revert in_run. induction s as [|c s IH]; intros in_run; simpl; [reflexivity|].
  destruct (is_slug_char c) eqn:Hc; simpl.
  - unfold slug_or_dash at 1. now rewrite Hc, IH.
  - destruct in_run; simpl; [apply IH | now rewrite IH].
Qed.

Lemma replace_runs_dashes (in_run : bool) (s : string) :
  dashes_apart in_run (replace_runs in_run s) = true.
Proof.
  revert in_run. induction s as [|c s IH]; intros in_run; simpl;
    [reflexivity|].
  destruct (is_slug_char c) eqn:Hc; simpl.
  - rewrite (slug_char_not_dash c Hc). apply IH.
  - destruct in_run; simpl; [apply IH | apply IH].
Qed.

Lemma replace_runs_filter (in_run : bool) (s : string) :
  filter_chars is_slug_char (replace_runs in_run s) = filter_chars is_slug_char s.
Proof.
  revert in_run. induction s as [|c s IH]; intros in_run; simpl; [reflexivity|].
  destruct (is_slug_char c) eqn:Hc; simpl.
  - now rewrite Hc, IH.
  - destruct in_run; simpl; apply IH.
Qed.

Lemma lower_on_slug (s : string) :
  all_chars slug_or_dash s = true -> lower s = s.
Proof.
  unfold lower, ascii_lower. induction s as [|c s IH]; simpl; [reflexivity|].
  intros H. apply andb_true_iff in H as [Hc Hs].
  now rewrite (slug_or_dash_lower c Hc), (IH Hs).
Qed.

Lemma ltrim_dash_chars (f : ascii -> bool) (s : string) :
  all_chars f s = true -> all_chars f (ltrim_dash s) = true.
Proof.
  induction s as [|c s IH]; simpl; [reflexivity|].
  intros H. apply andb_true_iff in H as [Hc Hs].
  destruct (is_dash c); [now apply IH | simpl; now rewrite Hc, Hs].
Qed.

Lemma rtrim_dash_chars (f : ascii -> bool) (s : string) :
  all_chars f s = true -> all_chars f (rtrim_dash s) = true.
Proof.
  induction s as [|c s IH]; simpl; [reflexivity|].
  intros H. apply andb_true_iff in H as [Hc Hs].
  destruct (is_dash c && String.eqb (rtrim_dash s) ""); simpl;
    [reflexivity | now rewrite Hc, (IH Hs)].
Qed.

Lemma dashes_apart_weaken (s : string) :
  dashes_apart true s = true -> dashes_apart false s = true.
Proof.
  destruct s as [|c s]; simpl; [reflexivity|].
  destruct (is_dash c); [discriminate | trivial].
Qed.

Lemma ltrim_dash_dashes (after_dash : bool) (s : string) :
  dashes_apart after_dash s = true -> dashes_apart false (ltrim_dash s) = true.
Proof.
  revert after_dash. induction s as [|c s IH]; intros after_dash; simpl;
    [reflexivity|].
  destruct (is_dash c) eqn:Hc.
  - intros H. apply andb_true_iff in H as [_ H]. now apply (IH true).
  - intros H. simpl. now rewrite Hc.
Qed.

Lemma rtrim_dash_dashes (after_dash : bool) (s : string) :
  dashes_apart after_dash s = true ->
  dashes_apart after_dash (rtrim_dash s) = true.
Proof.
  revert after_dash. induction s as [|c s IH]; intros after_dash; simpl;
    [reflexivity|].
  destruct (is_dash c) eqn:Hc; simpl.
  - intros H. apply andb_true_iff in H as [Hprev H].
    destruct (String.eqb (rtrim_dash s) ""); simpl; [reflexivity|].
    now rewrite Hc, Hprev, (IH true H).
  - intros H. now rewrite Hc, (IH false H).
Qed.

Lemma ltrim_dash_first (s : string) : first_char (ltrim_dash s) <> Some "-"%char.
Proof.
  induction s as [|c s IH]; simpl; [discriminate|].
  destruct (is_dash c) eqn:Hc; [exact IH|]. simpl. intros [= ->].
  discriminate Hc.
Qed.

Lemma rtrim_dash_first (s : string) :
  first_char s <> Some "-"%char -> first_char (rtrim_dash s) <> Some "-"%char.
Proof.
  destruct s as [|c s]; simpl; [trivial|].
  intros H. destruct (is_dash c && String.eqb (rtrim_dash s) ""); simpl;
    [discriminate | exact H].
Qed.

Lemma rtrim_dash_last (s : string) : last_char (rtrim_dash s) <> Some "-"%char.
Proof.
  induction s as [|c s IH]; simpl; [discriminate|].
  destruct (is_dash c) eqn:Hc; simpl.
  - destruct (String.eqb_spec (rtrim_dash s) "") as [He | Hne]; simpl;
      [discriminate|].
    destruct (rtrim_dash s) as [|d t]; [contradiction | exact IH].
  - destruct (rtrim_dash s) as [|d t]; [|exact IH].
    intros [= ->]. discriminate Hc.
Qed.

Lemma ltrim_dash_filter (s : string) :
  filter_chars is_slug_char (ltrim_dash s) = filter_chars is_slug_char s.
Proof.
  induction s as [|c s IH]; simpl; [reflexivity|].
  destruct (is_dash c) eqn:Hc; [|reflexivity].
  destruct (is_slug_char c) eqn:Hs; [|exact IH].
  rewrite (slug_char_not_dash c Hs) in Hc. discriminate.
Qed.

Lemma rtrim_dash_filter (s : string) :
  filter_chars is_slug_char (rtrim_dash s) = filter_chars is_slug_char s.
Proof.
  induction s as [|c s IH]; simpl; [reflexivity|].
  destruct (is_dash c) eqn:Hc; simpl.
  - assert (is_slug_char c = false) as Hs.
    { destruct (is_slug_char c) eqn:Hs; [|reflexivity].
      rewrite (slug_char_not_dash c Hs) in Hc. discriminate. }
    rewrite Hs.
    destruct (String.eqb_spec (rtrim_dash s) "") as [He | Hne]; simpl.
    + rewrite <- IH, He. reflexivity.
    + now rewrite Hs.
  - now rewrite IH.
Qed.

Lemma dashes_apart_first (s : string) :
  dashes_apart true s = true -> startsWith s "-" = false.
Proof.
  destruct s as [|d s]; [reflexivity|]. cbn [dashes_apart startsWith].
  unfold is_dash. rewrite (Ascii.eqb_sym "-" d).
  destruct (Ascii.eqb d "-"); [discriminate | reflexivity].
Qed.

Lemma dashes_apart_no_pair (after_dash : bool) (s : string) :
  dashes_apart after_dash s = true -> occurs_in "--" s = false.
Proof.
  revert after_dash. induction s as [|c s IH]; intros after_dash;
    [reflexivity|].
  cbn [dashes_apart occurs_in startsWith].
  destruct (is_dash c) eqn:Hc.
  - intros H. apply andb_true_iff in H as [_ H].
    rewrite (IH true H), (dashes_apart_first s H).
    now rewrite andb_false_r.
  - intros H. rewrite (IH false H).
    unfold is_dash in Hc. now rewrite (Ascii.eqb_sym "-" c), Hc.
Qed.

(** [lower] finds nothing to change: the replacement has left no
    upper-case letter. *)
Lemma base_slug_without_lower (restaurant_name : string) :
  base_slug_of unaccent restaurant_name
  = trim_both_dash (regexp_replace_non_slug (unaccent restaurant_name)).
Proof.
  unfold base_slug_of, regexp_replace_non_slug.
  now rewrite (lower_on_slug _ (replace_runs_chars false _)).
Qed.

Lemma base_slug_chars (restaurant_name : string) :
  all_chars slug_or_dash (base_slug_of unaccent restaurant_name) = true.
Proof.
  rewrite base_slug_without_lower.
  apply rtrim_dash_chars, ltrim_dash_chars, replace_runs_chars.
Qed.

Lemma base_slug_first (restaurant_name : string) :
  first_char (base_slug_of unaccent restaurant_name) <> Some "-"%char.
Proof.
  rewrite base_slug_without_lower. apply rtrim_dash_first, ltrim_dash_first.
Qed.

(** The base slug is made of a-z, 0-9 and dashes, neither starts nor ends
    with a dash, and has no two dashes in a row; [lower] changes nothing
    in it. *)
Theorem base_slug_shape (restaurant_name : string) :
  all_chars slug_or_dash (base_slug_of unaccent restaurant_name) = true
  /\ first_char (base_slug_of unaccent restaurant_name) <> Some "-"%char
  /\ last_char (base_slug_of unaccent restaurant_name) <> Some "-"%char
  /\ occurs_in "--" (base_slug_of unaccent restaurant_name) = false
  /\ base_slug_of unaccent restaurant_name
     = trim_both_dash (regexp_replace_non_slug (unaccent restaurant_name)).
Proof.
  unfold base_slug_of, regexp_replace_non_slug, trim_both_dash.
  rewrite (lower_on_slug _ (replace_runs_chars false _)).
  repeat split.
  - apply rtrim_dash_chars, ltrim_dash_chars, replace_runs_chars.
  - apply rtrim_dash_first, ltrim_dash_first.
  - apply rtrim_dash_last.
  - apply (dashes_apart_no_pair false), rtrim_dash_dashes,
      (ltrim_dash_dashes false), replace_runs_dashes.
Qed.

(** The letters and digits of the slug are the lower-case letters and the
    digits of the unaccented name, in their order: an upper-case letter is
    replaced like a space, before [lower] is applied.  A name without a
    lower-case letter or a digit gives the empty slug. *)
Theorem base_slug_keeps_lowercase_only (restaurant_name : string) :
  filter_chars is_slug_char (base_slug_of unaccent restaurant_name)
  = filter_chars is_slug_char (unaccent restaurant_name)
  /\ (all_chars (fun c => negb (is_slug_char c)) (unaccent restaurant_name) = true
      <-> base_slug_of unaccent restaurant_name = "").
Proof.
  assert (filter_chars is_slug_char (base_slug_of unaccent restaurant_name)
          = filter_chars is_slug_char (unaccent restaurant_name)) as Hfilter.
  { rewrite base_slug_without_lower.
    unfold trim_both_dash, regexp_replace_non_slug.
    now rewrite rtrim_dash_filter, ltrim_dash_filter, replace_runs_filter. }
  split; [exact Hfilter|].
  assert (forall s, all_chars (fun c => negb (is_slug_char c)) s = true
                    <-> filter_chars is_slug_char s = "") as Hnone.
  { induction s as [|c s IH]; simpl; [tauto|].
    destruct (is_slug_char c); simpl; [split; discriminate | exact IH]. }
  rewrite Hnone, <- Hfilter.
  pose proof (base_slug_chars restaurant_name) as Hchars.
  pose proof (base_slug_first restaurant_name) as Hfirst.
  destruct (base_slug_of unaccent restaurant_name) as [|c s]; [tauto|].
  split; [|discriminate].
  simpl in *. apply andb_true_iff in Hchars as [Hc _].
  unfold slug_or_dash in Hc. destruct (is_slug_char c); [discriminate|].
  simpl in Hc. unfold is_dash in Hc. apply Ascii.eqb_eq in Hc. now subst c.
Qed.

Lemma string_app_inj (base x y : string) : base +:+ x = base +:+ y -> x = y.
Proof. induction base as [|c base IH]; simpl; [trivial | intros [= H]; auto]. Qed.

Lemma string_app_length (a b : string) :
  String.length (a +:+ b) = (String.length a + String.length b)%nat.
Proof. induction a as [|c a IH]; simpl; [reflexivity | now rewrite IH]. Qed.

Lemma candidate_inj (base : string) (j k : Z) :
  0 <= j -> 0 <= k -> candidate base j = candidate base k -> j = k.
Proof.
  unfold candidate. intros Hj Hk.
  destruct (Z.eqb_spec j 0) as [->|Hj0]; destruct (Z.eqb_spec k 0) as [->|Hk0];
    [reflexivity | | |].
  - intros H. apply (f_equal String.length) in H.
    rewrite string_app_length in H. simpl in H. lia.
  - intros H. apply (f_equal String.length) in H.
    rewrite string_app_length in H. simpl in H. lia.
  - intros H. apply string_app_inj in H. injection H as H.
    change (pretty j = pretty k) in H. exact (pretty_Z_inj j k H).
Qed.

Lemma subdomain_taken_iff (db : database) (slug : string) :
  subdomain_taken db slug = true
  <-> slug ∈ omap rw_subdomain (restaurant_websites db).
Proof.
  unfold subdomain_taken. rewrite existsb_exists, list_elem_of_omap. split.
  - intros (rw & Hin & Heq). exists rw. split; [now apply list_elem_of_In|].
    unfold sql_eq_text in Heq. destruct (rw_subdomain rw) as [s|]; [|discriminate].
    apply String.eqb_eq in Heq. now subst.
  - intros (rw & Hin & Heq). exists rw. split; [now apply list_elem_of_In|].
    unfold sql_eq_text. rewrite Heq. apply String.eqb_refl.
Qed.

Lemma omap_length_le {A B : Type} (f : A -> option B) (l : list A) :
  (length (omap f l) <= length l)%nat.
Proof.
  induction l as [|x l IH]; cbn [omap list_omap]; [reflexivity|].
  destruct (f x); simpl; lia.
Qed.

(** Pigeonhole: the first [n + 1] candidates cannot all be taken by a table
    of at most [n] rows. *)
Lemma candidates_not_all_taken (db : database) (base : string) (n : nat) :
  (forall j, 0 <= j <= Z.of_nat n -> subdomain_taken db (candidate base j) = true) ->
  (n < length (restaurant_websites db))%nat.
Proof.
  intros Hall.
  assert (candidate base <$> seqZ 0 (Z.of_nat (S n))
          ⊆+ omap rw_subdomain (restaurant_websites db)) as Hsub.
  { apply NoDup_submseteq.
    - apply NoDup_fmap_2_strong; [|apply NoDup_seqZ].
      intros j k Hj Hk. apply elem_of_seqZ in Hj, Hk.
      apply candidate_inj; lia.
    - intros slug Hin. apply list_elem_of_fmap in Hin as (j & -> & Hj).
      apply elem_of_seqZ in Hj. apply subdomain_taken_iff, Hall. lia. }
  apply submseteq_length in Hsub.
  rewrite length_fmap, length_seqZ in Hsub.
  pose proof (omap_length_le rw_subdomain (restaurant_websites db)). lia.
Qed.

(** What a run of the loop from [counter] establishes. *)
Lemma uniqueness_loop_spec (db : database) (base : string) (turns : nat)
    (counter : Z) :
  0 <= counter ->
  match uniqueness_loop turns db base counter (candidate base counter) with
  | Returned slug =>
      exists k, counter <= k <= counter + Z.of_nat turns
                /\ slug = candidate base k
                /\ subdomain_taken db slug = false
                /\ forall j, counter <= j < k ->
                             subdomain_taken db (candidate base j) = true
  | IntegerOutOfRange =>
      forall j, counter <= j <= 2147483647 ->
                subdomain_taken db (candidate base j) = true
  | StillLooping =>
      forall j, counter <= j <= counter + Z.of_nat turns ->
                subdomain_taken db (candidate base j) = true
  end.
Proof.
  revert counter. induction turns as [|turns IH]; intros counter Hpos;
    cbn [uniqueness_loop].
  - destruct (subdomain_taken db (candidate base counter)) eqn:Htaken.
    + intros j Hj. replace j with counter by lia. exact Htaken.
    + exists counter. repeat split; try lia; try assumption; intros; lia.
  - destruct (subdomain_taken db (candidate base counter)) eqn:Htaken.
    + destruct (Z.leb_spec 2147483647 counter) as [Hmax | Hmax].
      * intros j Hj. replace j with counter by lia. exact Htaken.
      * specialize (IH (counter + 1) ltac:(lia)).
        assert (candidate base (counter + 1)
                = base +:+ "-" +:+ pretty (counter + 1)) as Hcand.
        { unfold candidate. destruct (Z.eqb_spec (counter + 1) 0); [lia|reflexivity]. }
        rewrite <- Hcand.
        destruct (uniqueness_loop turns db base (counter + 1)
                    (candidate base (counter + 1))) as [slug| |].
        -- destruct IH as (k & Hk & -> & Hfree & Hbefore).
           exists k. repeat split; try lia; try assumption.
           intros j Hj. destruct (Z.eq_dec j counter) as [->|];
             [exact Htaken | apply Hbefore; lia].
        -- intros j Hj. destruct (Z.eq_dec j counter) as [->|];
             [exact Htaken | apply IH; lia].
        -- intros j Hj. destruct (Z.eq_dec j counter) as [->|];
             [exact Htaken | apply IH; lia].
    + exists counter. repeat split; try lia; try assumption; intros; lia.
Qed.

Lemma uniqueness_loop_more_turns (db : database) (base : string)
    (turns turns' : nat) (counter : Z) (final slug : string) :
  (turns <= turns')%nat ->
  uniqueness_loop turns db base counter final = Returned slug ->
  uniqueness_loop turns' db base counter final = Returned slug.
Proof.
  revert turns' counter final.
  induction turns as [|turns IH]; intros turns' counter final Hle;
    cbn [uniqueness_loop].
  - destruct turns'; cbn [uniqueness_loop];
      destruct (subdomain_taken db final); try discriminate; trivial.
  - destruct turns' as [|turns']; [lia|]. cbn [uniqueness_loop].
    destruct (subdomain_taken db final); [|trivial].
    destruct (2147483647 <=? counter); [trivial|].
    apply IH. lia.
Qed.

(** The run of the function on a table that the counter can number. *)
Lemma generate_website_subdomain_returns (db : database) (restaurant_name : string) :
  Z.of_nat (length (restaurant_websites db)) < 2147483647 ->
  exists slug k,
    generate_website_subdomain unaccent (length (restaurant_websites db)) db
      restaurant_name = Returned slug
    /\ 0 <= k <= Z.of_nat (length (restaurant_websites db))
    /\ slug = candidate (base_slug_of unaccent restaurant_name) k
    /\ subdomain_taken db slug = false
    /\ (forall j, 0 <= j < k ->
          subdomain_taken db
            (candidate (base_slug_of unaccent restaurant_name) j) = true).
Proof.
  intros Hsmall. unfold generate_website_subdomain.
  set (base := base_slug_of unaccent restaurant_name).
  set (n := length (restaurant_websites db)) in *.
  pose proof (uniqueness_loop_spec db base n 0 ltac:(lia)) as Hspec.
  change (candidate base 0) with base in Hspec.
  destruct (uniqueness_loop n db base 0 base) as [slug| |] eqn:Hrun.
  - destruct Hspec as (k & Hk & -> & Hfree & Hbefore).
    exists (candidate base k), k. repeat split; try lia; assumption.
  - exfalso.
    assert (n < length (restaurant_websites db))%nat; [|lia].
    apply (candidates_not_all_taken db base). intros j Hj. apply Hspec. lia.
  - exfalso.
    assert (n < length (restaurant_websites db))%nat; [|lia].
    apply (candidates_not_all_taken db base). intros j Hj. apply Hspec. lia.
Qed.

(** No row has a subdomain that the loop has found free. *)
Lemma free_subdomain_rows (db : database) (slug : string) :
  subdomain_taken db slug = false ->
  forall rw, rw ∈ restaurant_websites db -> rw_subdomain rw <> Some slug.
Proof.
  intros Hfree rw Hrw Heq.
  assert (subdomain_taken db slug = true) as Htaken.
  { apply subdomain_taken_iff, list_elem_of_omap. now exists rw. }
  congruence.
Qed.

(** For every table of fewer than 2^31 - 1 rows, the function returns,
    within one turn of the loop per row: the base slug when no row has it,
    otherwise the base slug with the least counter from 1 on that no row
    has.  No row has the slug it returns, so no site is served under it
    yet. *)
Theorem generated_subdomain_is_free (db : database) (restaurant_name : string) :
  Z.of_nat (length (restaurant_websites db)) < 2147483647 ->
  exists slug k,
    generate_website_subdomain unaccent (length (restaurant_websites db)) db
      restaurant_name = Returned slug
    /\ 0 <= k <= Z.of_nat (length (restaurant_websites db))
    /\ slug = candidate (base_slug_of unaccent restaurant_name) k
    /\ subdomain_taken db slug = false
    /\ (forall j, 0 <= j < k ->
          subdomain_taken db
            (candidate (base_slug_of unaccent restaurant_name) j) = true)
    /\ (forall rw, rw ∈ restaurant_websites db -> rw_subdomain rw <> Some slug)
    /\ get_public_website db slug = []
    /\ (forall turns, (length (restaurant_websites db) <= turns)%nat ->
          generate_website_subdomain unaccent turns db restaurant_name
          = Returned slug).
Proof.
  intros Hsmall.
  destruct (generate_website_subdomain_returns db restaurant_name Hsmall)
    as (slug & k & Hrun & Hk & Hslug & Hfree & Hbefore).
  exists slug, k.
  pose proof (free_subdomain_rows db slug Hfree) as Hrows.
  split; [exact Hrun|]. split; [exact Hk|]. split; [exact Hslug|].
  split; [exact Hfree|]. split; [exact Hbefore|]. split; [exact Hrows|]. split.
  - destruct (get_public_website db slug) as [|shown rest] eqn:Hquery;
      [reflexivity|].
    assert (shown ∈ get_public_website db slug) as Hin
      by (rewrite Hquery; apply list_elem_of_here).
    apply get_public_website_spec in Hin
      as (rw & r & (Hrw & _ & _ & Hsub & _) & _).
    now destruct (Hrows rw Hrw).
  - intros turns Hturns. unfold generate_website_subdomain in *.
    now apply (uniqueness_loop_more_turns db _
                 (length (restaurant_websites db)) turns).
Qed.

End SubdomainFacts.

Lemma generated_subdomain_is_free_witness :
  Z.of_nat (length (PublicSite.restaurant_websites Subdomain.two_sites))
  < 2147483647
  /\ exists slug k,
       Subdomain.generate_website_subdomain Subdomain.no_accents
         (length (PublicSite.restaurant_websites Subdomain.two_sites))
         Subdomain.two_sites "Chez Marie" = Subdomain.Returned slug
       /\ 0 <= k <= Z.of_nat (length (PublicSite.restaurant_websites
                                        Subdomain.two_sites))
       /\ slug = Subdomain.candidate
                   (Subdomain.base_slug_of Subdomain.no_accents "Chez Marie") k
       /\ Subdomain.subdomain_taken Subdomain.two_sites slug = false
       /\ (forall j, 0 <= j < k ->
             Subdomain.subdomain_taken Subdomain.two_sites
               (Subdomain.candidate
                  (Subdomain.base_slug_of Subdomain.no_accents "Chez Marie") j)
             = true)
       /\ (forall rw, rw ∈ PublicSite.restaurant_websites Subdomain.two_sites ->
             PublicSite.rw_subdomain rw <> Some slug)
       /\ PublicSite.get_public_website Subdomain.two_sites slug = []
       /\ (forall turns,
             (length (PublicSite.restaurant_websites Subdomain.two_sites)
              <= turns)%nat ->
             Subdomain.generate_website_subdomain Subdomain.no_accents turns
               Subdomain.two_sites "Chez Marie" = Subdomain.Returned slug).
Proof.
  split; [simpl; lia|].
  apply (generated_subdomain_is_free Subdomain.no_accents
           Subdomain.two_sites "Chez Marie").
  simpl; lia.
Defined.

(** ** Alternatives that never decide *)

Section ShadowedAlternatives.
Import JsString Regex Enhancer EnhancerPatterns.

Lemma match_here_prefix (w rest s : string) :
  match_here (w +:+ rest) s = true -> match_here w s = true.
Proof.
  revert s. induction w as [|c w IH]; intros s; [reflexivity|].
  cbn [String.append match_here]. destruct s as [|d s]; [discriminate|].
  intros H. apply andb_true_iff in H as [Hc H]. now rewrite Hc, (IH s H).
Qed.

Lemma match_here_suffix (before w s : string) :
  match_here (before +:+ w) s = true -> match_anywhere w s = true.
Proof.
  revert s. induction before as [|c before IH]; intros s.
  - apply match_anywhere_here.
  - cbn [String.append match_here]. destruct s as [|d s]; [discriminate|].
    intros H. apply andb_true_iff in H as [_ H].
    cbn [match_anywhere]. rewrite (IH s H). apply orb_true_r.
Qed.

Lemma match_anywhere_prefix (w rest s : string) :
  match_anywhere (w +:+ rest) s = true -> match_anywhere w s = true.
Proof.
  induction s as [|d s IH]; cbn [match_anywhere]; intros H;
    apply orb_true_iff in H as [H | H]; try discriminate.
  - now rewrite (match_here_prefix w rest _ H).
  - now rewrite (match_here_prefix w rest _ H).
  - rewrite (IH H). apply orb_true_r.
Qed.

Lemma match_anywhere_suffix (before w s : string) :
  match_anywhere (before +:+ w) s = true -> match_anywhere w s = true.
Proof.
  induction s as [|d s IH]; intros H.
  - cbn [match_anywhere] in H. rewrite orb_false_r in H.
    now apply match_here_suffix in H.
  - cbn [match_anywhere] in H. apply orb_true_iff in H as [H | H].
    + now apply match_here_suffix in H.
    + cbn [match_anywhere]. rewrite (IH H). apply orb_true_r.
Qed.

(** Where a word matches, every word that occurs in it matches too. *)
Lemma match_anywhere_inner (before w rest s : string) :
  match_anywhere (before +:+ w +:+ rest) s = true -> match_anywhere w s = true.
Proof.
  intros H. apply match_anywhere_suffix in H.
  now apply match_anywhere_prefix in H.
Qed.

(** Dropping from a pattern an alternative in which another alternative
    of the pattern occurs does not change what the pattern matches. *)
Lemma regex_test_drop_shadowed (front back : list string)
    (before w rest s : string) :
  In w (front ++ back) ->
  regex_test (front ++ (before +:+ w +:+ rest) :: back) s
  = regex_test (front ++ back) s.
Proof.
  intros Hin. unfold regex_test. rewrite !existsb_app. cbn [existsb].
  destruct (match_anywhere (before +:+ w +:+ rest) s) eqn:Hlong;
    [|reflexivity].
  apply match_anywhere_inner in Hlong.
  assert (existsb (fun w0 => match_anywhere w0 s) (front ++ back) = true) as Hex
    by (apply existsb_exists; eauto).
  rewrite existsb_app in Hex. rewrite Hex.
  destruct (existsb (fun w0 => match_anywhere w0 s) front); reflexivity.
Qed.

Variable toLowerCase : string -> string.

(** "oil painting", "cartoon", "photograph", "realistic" and "digital art"
    never decide.  The artistic and the photo detector are the detectors of
    the shorter patterns; a prompt in which "digital art" is found is
    styled as artistic, and a prompt is styled as a 3D render only if "3d",
    "render" or "cgi" is found in it. *)
Theorem shadowed_alternatives (userPrompt : string) :
  isArtistic toLowerCase userPrompt
  = regex_test artistic_words_short (toLowerCase userPrompt)
  /\ isPhoto toLowerCase userPrompt
     = regex_test photo_words_short (toLowerCase userPrompt)
  /\ (regex_test ["digital art"] (toLowerCase userPrompt) = true ->
      selected_style toLowerCase userPrompt = Artistic)
  /\ (selected_style toLowerCase userPrompt = Render3D ->
      regex_test render3d_words_short (toLowerCase userPrompt) = true).
Proof.
  assert (forall s, regex_test artistic_words s = regex_test artistic_words_short s)
    as Hart.
  { intros s.
    transitivity (regex_test
                    ["art"; "painting"; "drawing"; "sketch"; "illustration";
                     "anime"; "watercolor"; "oil painting"; "abstract"] s).
    - exact (regex_test_drop_shadowed
               ["art"; "painting"; "drawing"; "sketch"; "illustration"]
               ["anime"; "watercolor"; "oil painting"; "abstract"]
               "c" "art" "oon" s (or_introl eq_refl)).
    - exact (regex_test_drop_shadowed
               ["art"; "painting"; "drawing"; "sketch"; "illustration";
                "anime"; "watercolor"]
               ["abstract"] "oil " "painting" "" s
               (or_intror (or_introl eq_refl))). }
  assert (forall s, regex_test photo_words s = regex_test photo_words_short s)
    as Hphoto.
  { intros s.
    transitivity (regex_test
                    ["photo"; "realistic"; "real"; "portrait"; "landscape";
                     "nature"] s).
    - exact (regex_test_drop_shadowed ["photo"]
               ["realistic"; "real"; "portrait"; "landscape"; "nature"]
               "" "photo" "graph" s (or_introl eq_refl)).
    - exact (regex_test_drop_shadowed ["photo"]
               ["real"; "portrait"; "landscape"; "nature"]
               "" "real" "istic" s (or_intror (or_introl eq_refl))). }
  assert (regex_test ["digital art"] (toLowerCase userPrompt) = true ->
          isArtistic toLowerCase userPrompt = true) as Hdigital.
  { unfold isArtistic, regex_test. cbn [existsb]. rewrite orb_false_r.
    intros H. apply (match_anywhere_inner "digital " "art" "") in H.
    unfold artistic_words. cbn [existsb]. now rewrite H. }
  repeat split.
  - apply Hart.
  - apply Hphoto.
  - intros H. now apply selected_style_cases, Hdigital.
  - intros H. apply selected_style_cases in H as (Hnot & _ & H3).
    unfold is3D, render3d_words, regex_test in H3. cbn [existsb] in H3.
    unfold render3d_words_short, regex_test. cbn [existsb].
    destruct (match_anywhere "digital art" (toLowerCase userPrompt)) eqn:Hd.
    + assert (isArtistic toLowerCase userPrompt = true) as Hyes.
      { apply Hdigital. unfold regex_test. cbn [existsb]. now rewrite Hd. }
      congruence.
    + now rewrite !orb_false_r in *.
Qed.

End ShadowedAlternatives.

(** ** The list inputs of the builder form *)

Section FormInputFacts.
Import JsString FormInputs.

Lemma count_char_app (sep : ascii) (a b : string) :
  count_char sep (a +:+ b) = (count_char sep a + count_char sep b)%nat.
Proof. induction a as [|c a IH]; simpl; [reflexivity | rewrite IH; lia]. Qed.

Lemma split_first_piece (sep : ascii) (a b : string) :
  count_char sep a = 0%nat ->
  split sep (a +:+ String sep b) = a :: split sep b.
Proof.
  induction a as [|c a IH]; simpl.
  - now rewrite Ascii.eqb_refl.
  - destruct (Ascii.eqb c sep); [discriminate|]. intros H. now rewrite (IH H).
Qed.

Lemma split_pieces_clean (sep : ascii) (s : string) :
  Forall (fun piece => count_char sep piece = 0%nat) (split sep s).
Proof.
  induction s as [|c s IH]; simpl; [repeat constructor|].
  destruct (Ascii.eqb c sep) eqn:Hc; [now constructor|].
  destruct (split sep s) as [|piece rest]; [repeat constructor; simpl; now rewrite Hc|].
  inversion IH as [|? ? Hpiece Hrest]; subst. constructor; [|exact Hrest].
  simpl. now rewrite Hc.
Qed.

Lemma filter_non_empty_id (l : list string) :
  Forall (fun x => x <> "") l -> List.filter non_empty l = l.
Proof.
  induction 1 as [|x l Hx Hl IH]; simpl; [reflexivity|].
  unfold non_empty at 1. destruct (String.eqb_spec x ""); [contradiction|].
  simpl. now rewrite IH.
Qed.

Lemma filter_non_empty_all (l : list string) :
  Forall (fun x => x <> "") (List.filter non_empty l).
Proof.
  induction l as [|x l IH]; simpl; [constructor|].
  unfold non_empty at 1. destruct (String.eqb_spec x ""); simpl;
    [exact IH | now constructor].
Qed.

(** *** White space *)

Lemma trimStart_unfold (s : string) :
  trimStart s = match space_prefix s with
                | Some rest => trimStart rest
                | None => s
                end.
Proof.
  destruct s as [|c s1]; [reflexivity|]. cbn [trimStart space_prefix].
  destruct (is_ascii_space c); [reflexivity|].
  destruct s1 as [|d s2]; [reflexivity|].
  destruct (is_space2 c d); [reflexivity|].
  destruct s2 as [|e s3]; [reflexivity|].
  destruct (is_space3 c d e); reflexivity.
Qed.

Lemma space_prefix_split (s rest : string) :
  space_prefix s = Some rest ->
  exists w, s = w +:+ rest /\ w <> "" /\
            forall q, space_prefix (w +:+ q) = Some q.
Proof.
  destruct s as [|c s1]; cbn [space_prefix]; [discriminate|].
  destruct (is_ascii_space c) eqn:H1.
  { intros [= ->]. exists (String c ""). repeat split; [discriminate|].
    intros q. change (String c "" +:+ q) with (String c q).
    cbn [space_prefix]. now rewrite H1. }
  destruct s1 as [|d s2]; [discriminate|].
  destruct (is_space2 c d) eqn:H2.
  { intros [= ->]. exists (String c (String d "")). repeat split; [discriminate|].
    intros q. change (String c (String d "") +:+ q) with (String c (String d q)).
    cbn [space_prefix]. now rewrite H1, H2. }
  destruct s2 as [|e s3]; [discriminate|].
  destruct (is_space3 c d e) eqn:H3; [|discriminate].
  intros [= ->]. exists (String c (String d (String e ""))).
  repeat split; [discriminate|].
  intros q.
  change (String c (String d (String e "")) +:+ q)
    with (String c (String d (String e q))).
  cbn [space_prefix]. now rewrite H1, H2, H3.
Qed.

Lemma string_app_assoc (a b c : string) : (a +:+ b) +:+ c = a +:+ (b +:+ c).
Proof.
  induction a as [|x a IH]; [reflexivity|].
  change (String x ((a +:+ b) +:+ c) = String x (a +:+ (b +:+ c))).
  now rewrite IH.
Qed.

Lemma space_prefix_app (a rest q : string) :
  space_prefix a = Some rest -> space_prefix (a +:+ q) = Some (rest +:+ q).
Proof.
  intros H. destruct (space_prefix_split a rest H) as (w & -> & _ & Hw).
  rewrite string_app_assoc. apply Hw.
Qed.

Lemma space_prefix_shorter (s rest : string) :
  space_prefix s = Some rest -> (String.length rest < String.length s)%nat.
Proof.
  intros H. destruct (space_prefix_split s rest H) as (w & -> & Hne & _).
  rewrite string_app_length. destruct w; [contradiction | simpl; lia].
Qed.

(** Induction along the white-space characters a text starts with. *)
Lemma space_prefix_ind (P : string -> Prop) :
  (forall s, space_prefix s = None -> P s) ->
  (forall s rest, space_prefix s = Some rest -> P rest -> P s) ->
  forall s, P s.
Proof.
  intros Hnone Hsome s.
  remember (String.length s) as n eqn:Hn. revert s Hn.
  induction n as [n IH] using lt_wf_ind. intros s ->.
  destruct (space_prefix s) as [rest|] eqn:Hp; [|now apply Hnone].
  apply (Hsome s rest Hp), (IH (String.length rest)); [|reflexivity].
  now apply space_prefix_shorter.
Qed.

Lemma trimStart_no_space (s : string) : space_prefix (trimStart s) = None.
Proof.
  induction s as [s Hs | s rest Hs IH] using space_prefix_ind;
    rewrite trimStart_unfold, Hs; assumption.
Qed.

Lemma trimStart_suffix (s : string) : exists p, s = p +:+ trimStart s.
Proof.
  induction s as [s Hs | s rest Hs IH] using space_prefix_ind;
    rewrite trimStart_unfold, Hs.
  - now exists "".
  - destruct IH as (p & Hp).
    destruct (space_prefix_split s rest Hs) as (w & -> & _).
    exists (w +:+ p). now rewrite string_app_assoc, <- Hp.
Qed.

Lemma trimStart_app_blank (a q : string) :
  trimStart a = "" -> trimStart (a +:+ q) = trimStart q.
Proof.
  induction a as [a Ha | a rest Ha IH] using space_prefix_ind.
  - rewrite trimStart_unfold, Ha. now intros ->.
  - rewrite trimStart_unfold, Ha. intros Hblank.
    rewrite (trimStart_unfold (a +:+ q)), (space_prefix_app a rest q Ha).
    now apply IH.
Qed.

Lemma trimEnd_prefix (s : string) :
  exists q, s = trimEnd s +:+ q /\ trimStart q = "".
Proof.
  induction s as [|c s IH]; [now exists ""|]. cbn [trimEnd].
  destruct (String.eqb_spec (trimStart (String c s)) "") as [Hblank | Hnot].
  - now exists (String c s).
  - destruct IH as (q & Hq & Hblank). exists q. split; [|exact Hblank].
    change (String c s = String c (trimEnd s +:+ q)). now rewrite <- Hq.
Qed.

Lemma trimEnd_idempotent (s : string) : trimEnd (trimEnd s) = trimEnd s.
Proof.
  induction s as [|c s IH]; [reflexivity|]. cbn [trimEnd].
  destruct (String.eqb_spec (trimStart (String c s)) "") as [Hblank | Hnot];
    [reflexivity|].
  cbn [trimEnd].
  destruct (String.eqb_spec (trimStart (String c (trimEnd s))) "")
    as [Hblank | _]; [|now rewrite IH].
  exfalso. apply Hnot.
  destruct (trimEnd_prefix s) as (q & Hq & Hq_blank).
  rewrite Hq at 1.
  change (String c (trimEnd s +:+ q)) with (String c (trimEnd s) +:+ q).
  now rewrite trimStart_app_blank.
Qed.

Lemma space_prefix_of_prefix (p q : string) :
  space_prefix (p +:+ q) = None -> space_prefix p = None.
Proof.
  intros H. destruct (space_prefix p) as [rest|] eqn:Hp; [|reflexivity].
  rewrite (space_prefix_app p rest q Hp) in H. discriminate.
Qed.

Lemma trim_idempotent (s : string) : trim (trim s) = trim s.
Proof.
  unfold trim.
  assert (trimStart (trimEnd (trimStart s)) = trimEnd (trimStart s)) as ->.
  { destruct (trimEnd_prefix (trimStart s)) as (q & Hq & _).
    pose proof (trimStart_no_space s) as Hnone. rewrite Hq in Hnone.
    apply space_prefix_of_prefix in Hnone.
    now rewrite trimStart_unfold, Hnone. }
  apply trimEnd_idempotent.
Qed.

Lemma trim_after_space (k : string) : trim (" " +:+ k) = trim k.
Proof. reflexivity. Qed.

Lemma trim_keeps_clean (sep : ascii) (s : string) :
  count_char sep s = 0%nat -> count_char sep (trim s) = 0%nat.
Proof.
  intros H. unfold trim.
  destruct (trimStart_suffix s) as (p & Hp).
  destruct (trimEnd_prefix (trimStart s)) as (q & Hq & _).
  rewrite Hp, Hq, !count_char_app in H. lia.
Qed.

(** *** The two inputs *)

Lemma join_cons (sep x y : string) (l : list string) :
  join sep (x :: y :: l) = x +:+ sep +:+ join sep (y :: l).
Proof. reflexivity. Qed.

Lemma split_join_lines (x : string) (l : list string) :
  Forall plain_line (x :: l) ->
  split newline (show_gallery_images (x :: l)) = x :: l.
Proof.
  revert x. induction l as [|y l IH]; intros x Hall.
  - inversion Hall as [|? ? [_ Hx] _]; subst. simpl. now apply split_no_sep.
  - inversion Hall as [|? ? [_ Hx] Hrest]; subst.
    unfold show_gallery_images. rewrite join_cons.
    change (String newline "" +:+ join (String newline "") (y :: l))
      with (String newline (join (String newline "") (y :: l))).
    rewrite (split_first_piece newline x _ Hx). f_equal. now apply IH.
Qed.

Lemma split_join_keywords (k : string) (l : list string) :
  Forall plain_keyword (k :: l) ->
  split "," (show_keywords (k :: l)) = k :: List.map (fun x => " " +:+ x) l.
Proof.
  revert k. induction l as [|y l IH]; intros k Hall.
  - inversion Hall as [|? ? (_ & Hk & _) _]; subst. simpl. now apply split_no_sep.
  - inversion Hall as [|? ? (_ & Hk & _) Hrest]; subst.
    unfold show_keywords. rewrite join_cons.
    change (", " +:+ join ", " (y :: l))
      with (String "," (" " +:+ join ", " (y :: l))).
    rewrite (split_first_piece "," k _ Hk). f_equal.
    specialize (IH y Hrest). unfold show_keywords in IH.
    change (" " +:+ join ", " (y :: l))
      with (String " " (join ", " (y :: l))).
    cbn [split]. change (Ascii.eqb " " ",") with false. cbv iota.
    rewrite IH. reflexivity.
Qed.

(** The gallery textarea reads back what it shows: for a list of entries
    that are not empty and hold no line break, parsing the shown text gives
    the list.  Whatever is typed, the stored list is made of such entries
    only (blank lines are dropped), so showing it and reading it again
    changes nothing. *)
Theorem gallery_images_round_trip (text : string) (images : list string) :
  (Forall plain_line images ->
     parse_gallery_images (show_gallery_images images) = images)
  /\ Forall plain_line (parse_gallery_images text)
  /\ parse_gallery_images (show_gallery_images (parse_gallery_images text))
     = parse_gallery_images text.
Proof.
  assert (forall l, Forall plain_line l ->
                    parse_gallery_images (show_gallery_images l) = l) as Hround.
  { intros [|x l] Hall; [reflexivity|]. unfold parse_gallery_images.
    rewrite (split_join_lines x l Hall). apply filter_non_empty_id.
    eapply Forall_impl; [exact Hall | now intros ? [? _]]. }
  assert (Forall plain_line (parse_gallery_images text)) as Hplain.
  { unfold parse_gallery_images, plain_line.
    apply List.Forall_forall. intros x Hx. apply filter_In in Hx as [Hin Hne].
    split.
    - unfold non_empty in Hne. now destruct (String.eqb_spec x "").
    - pose proof (split_pieces_clean newline text) as Hclean.
      rewrite List.Forall_forall in Hclean. now apply Hclean. }
  repeat split; [apply Hround | exact Hplain | now apply Hround].
Qed.

(** The keywords input reads back what it shows: for keywords that are not
    empty, hold no comma and have no white space at either end, parsing the
    shown text gives the list.  Whatever is typed, the stored list is made
    of such keywords only, so showing it and reading it again changes
    nothing. *)
Theorem keywords_round_trip (text : string) (keywords : list string) :
  (Forall plain_keyword keywords ->
     parse_keywords (show_keywords keywords) = keywords)
  /\ Forall plain_keyword (parse_keywords text)
  /\ parse_keywords (show_keywords (parse_keywords text)) = parse_keywords text.
Proof.
  assert (forall l, Forall plain_keyword l ->
                    parse_keywords (show_keywords l) = l) as Hround.
  { intros [|k l] Hall; [reflexivity|]. unfold parse_keywords.
    rewrite (split_join_keywords k l Hall). cbn [List.map].
    rewrite List.map_map.
    assert (List.map (fun x => trim (" " +:+ x)) l = l) as ->.
    { inversion Hall as [|? ? _ Hrest]; subst.
      induction Hrest as [|y l (_ & _ & Hy) Hl IH]; [reflexivity|].
      cbn [List.map]. rewrite trim_after_space, Hy. f_equal. apply IH.
      constructor; [now inversion Hall | exact Hl]. }
    inversion Hall as [|? ? (Hne & _ & Hk) _]; subst. rewrite Hk.
    apply filter_non_empty_id.
    eapply Forall_impl; [exact Hall | now intros ? [? _]]. }
  assert (Forall plain_keyword (parse_keywords text)) as Hplain.
  { unfold parse_keywords, plain_keyword.
    apply List.Forall_forall. intros x Hx. apply filter_In in Hx as [Hin Hne].
    apply in_map_iff in Hin as (piece & <- & Hpiece).
    repeat split.
    - unfold non_empty in Hne. now destruct (String.eqb_spec (trim piece) "").
    - apply trim_keeps_clean.
      pose proof (split_pieces_clean "," text) as Hclean.
      rewrite List.Forall_forall in Hclean. now apply Hclean.
    - apply trim_idempotent. }
  repeat split; [apply Hround | exact Hplain | now apply Hround].
Qed.

End FormInputFacts.

(** *** Typing at the end of an input

    Both inputs are controlled: what they display is the stored list shown
    again, so a character typed at the end survives only if it changes the
    parsed list. *)

Section FormTypingFacts.
Import JsString FormInputs.

Lemma split_not_nil (sep : ascii) (s : string) : split sep s <> [].
Proof.
  destruct s as [|c s]; simpl; [discriminate|].
  destruct (Ascii.eqb c sep); [discriminate|].
  destruct (split sep s); discriminate.
Qed.

Lemma split_snoc_sep (sep : ascii) (s : string) :
  split sep (s +:+ String sep "") = split sep s ++ [EmptyString].
Proof.
  induction s as [|c s IH].
  - simpl. now rewrite Ascii.eqb_refl.
  - change (String c s +:+ String sep "") with (String c (s +:+ String sep "")).
    cbn [split]. rewrite IH.
    destruct (Ascii.eqb c sep); [reflexivity|].
    pose proof (split_not_nil sep s) as Hne.
    destruct (split sep s) as [|piece rest]; [contradiction | reflexivity].
Qed.

Lemma split_snoc_char (sep c : ascii) (s : string) :
  Ascii.eqb c sep = false ->
  exists init last,
    split sep s = init ++ [last] /\
    split sep (s +:+ String c "") = init ++ [last +:+ String c ""].
Proof.
  intros Hc. induction s as [|x s (init & last & Hs & Hsc)].
  - exists [], EmptyString. simpl. now rewrite Hc.
  - change (String x s +:+ String c "") with (String x (s +:+ String c "")).
    cbn [split]. rewrite Hs, Hsc.
    destruct (Ascii.eqb x sep).
    + now exists (EmptyString :: init), last.
    + destruct init as [|piece init]; cbn [app].
      * now exists [], (String x last).
      * now exists (String x piece :: init), last.
Qed.

Lemma space_prefix_snoc_space (p : string) :
  p <> "" -> space_prefix p = None -> space_prefix (p +:+ " ") = None.
Proof.
  destruct p as [|c [|d [|e p]]]; [contradiction | | |]; intros _;
    cbn [space_prefix];
    [ change (String c "" +:+ " ") with (String c " ")
    | change (String c (String d "") +:+ " ") with (String c (String d " "))
    | change (String c (String d (String e p)) +:+ " ")
        with (String c (String d (String e (p +:+ " ")))) ];
    cbn [space_prefix];
    destruct (is_ascii_space c); try discriminate.
  - unfold is_space2. cbn [nat_of_ascii]. intros _.
    change (nat_of_ascii " ") with 32%nat.
    now rewrite andb_false_r.
  - destruct (is_space2 c d); [discriminate|]. intros _.
    unfold is_space3.
    change (nat_of_ascii " ") with 32%nat. cbn [Nat.eqb Nat.leb].
    now rewrite !andb_false_r.
  - destruct (is_space2 c d); [discriminate|].
    destruct (is_space3 c d e); [discriminate | reflexivity].
Qed.

Lemma trimStart_snoc_space (p : string) :
  trimStart (p +:+ " ")
  = if String.eqb (trimStart p) "" then EmptyString else trimStart p +:+ " ".
Proof.
  induction p as [p Hp | p rest Hp IH] using space_prefix_ind.
  - rewrite (trimStart_unfold p), Hp.
    destruct (String.eqb_spec p "") as [-> | Hne]; [reflexivity|].
    now rewrite trimStart_unfold, (space_prefix_snoc_space p Hne Hp).
  - rewrite (trimStart_unfold p), Hp.
    now rewrite trimStart_unfold, (space_prefix_app p rest " " Hp).
Qed.

Lemma string_app_not_empty (a b : string) : b <> "" -> a +:+ b <> "".
Proof. destruct a; [trivial | discriminate]. Qed.

Lemma trimEnd_snoc_space (u : string) : trimEnd (u +:+ " ") = trimEnd u.
Proof.
  induction u as [|c u IH]; [reflexivity|].
  change (String c u +:+ " ") with (String c (u +:+ " ")).
  cbn [trimEnd]. rewrite IH.
  change (String c (u +:+ " ")) with (String c u +:+ " ").
  rewrite trimStart_snoc_space.
  destruct (String.eqb_spec (trimStart (String c u)) "") as [_ | Hne];
    [reflexivity|].
  destruct (String.eqb_spec (trimStart (String c u) +:+ " ") "") as [Habs | _];
    [|reflexivity].
  now apply string_app_not_empty in Habs.
Qed.

Lemma trim_snoc_space (p : string) : trim (p +:+ " ") = trim p.
Proof.
  unfold trim. rewrite trimStart_snoc_space.
  destruct (String.eqb_spec (trimStart p) "") as [-> | _]; [reflexivity|].
  apply trimEnd_snoc_space.
Qed.

Lemma filter_snoc_empty (l : list string) :
  List.filter non_empty (l ++ [EmptyString]) = List.filter non_empty l.
Proof. rewrite List.filter_app. simpl. apply app_nil_r. Qed.

(** A line break typed at the end of the gallery textarea, and a comma or
    a space typed at the end of the keywords input, do not change the
    stored list: the input then displays the same text as before the key
    was pressed. *)
Theorem trailing_separator_is_dropped (text : string) :
  parse_gallery_images (text +:+ String newline "") = parse_gallery_images text
  /\ parse_keywords (text +:+ ",") = parse_keywords text
  /\ parse_keywords (text +:+ " ") = parse_keywords text
  /\ show_gallery_images (parse_gallery_images (text +:+ String newline ""))
     = show_gallery_images (parse_gallery_images text)
  /\ show_keywords (parse_keywords (text +:+ ","))
     = show_keywords (parse_keywords text)
  /\ show_keywords (parse_keywords (text +:+ " "))
     = show_keywords (parse_keywords text).
Proof.
  assert (parse_gallery_images (text +:+ String newline "")
          = parse_gallery_images text) as Hline.
  { unfold parse_gallery_images. rewrite split_snoc_sep.
    apply filter_snoc_empty. }
  assert (parse_keywords (text +:+ ",") = parse_keywords text) as Hcomma.
  { unfold parse_keywords. rewrite split_snoc_sep, List.map_app.
    apply filter_snoc_empty. }
  assert (parse_keywords (text +:+ " ") = parse_keywords text) as Hspace.
  { unfold parse_keywords.
    destruct (split_snoc_char "," " " text eq_refl)
      as (init & last & -> & ->).
    rewrite !List.map_app. cbn [List.map]. now rewrite trim_snoc_space. }
  rewrite Hline, Hcomma, Hspace. repeat split.
Qed.

(** The parsers at work on one text each. *)
Example parse_examples :
  parse_keywords " pizza ,pasta maison,, " = ["pizza"; "pasta maison"]
  /\ show_keywords ["pizza"; "pasta maison"] = "pizza, pasta maison"
  /\ parse_gallery_images
       ("a.png" +:+ String newline (String newline "b.png")) = ["a.png"; "b.png"].
Proof. repeat split. Qed.

End FormTypingFacts.

(** ** The builder form *)

Section BuilderFacts.
Import WebsiteHook WebsiteBuilder.

Variable restaurantId : option string.
Variable restaurantName : string.
Variable store : StoreOp -> StoreReply.
Variable rpc : string -> RpcReply.

#[local] Abbreviation saveConfig := (WebsiteHook.saveConfig restaurantId store).
#[local] Abbreviation handleSave := (handleSave restaurantId store).
#[local] Abbreviation handleTogglePublish :=
  (handleTogglePublish restaurantId restaurantName store rpc).
#[local] Abbreviation generateSubdomain := (generateSubdomain rpc).

Lemma after_save_outcome (updates : gmap string value) (b : BuilderState) :
  save_outcome restaurantId updates b (after_save b (saveConfig updates (hook b))).
Proof.
  unfold save_outcome.
  destruct (saveConfig_paths restaurantId updates (hook b))
    as [Hguard | (rid & cfg & Hrid & Hne & Hcfg)].
  { rewrite saveConfig_guard_path by exact Hguard. cbn.
    repeat split; [lia | intros op Hop; now apply elem_of_nil in Hop |].
    left. repeat split. intros Hin. now apply elem_of_nil in Hin. }
  destruct (truthy (cfg !! "id")) eqn:Hid.
  - rewrite (saveConfig_update_path restaurantId store updates (hook b) rid cfg)
      by assumption.
    destruct (store _); cbn.
    + repeat split; [lia | |].
      * intros op Hop. apply list_elem_of_singleton in Hop as ->.
        exists cfg. split; [exact Hcfg | now left].
      * left. repeat split. intros Hin.
        now apply list_elem_of_singleton in Hin.
    + repeat split; [lia | |].
      * intros op Hop. apply list_elem_of_singleton in Hop as ->.
        exists cfg. split; [exact Hcfg | now left].
      * right. exists cfg, (spread cfg updates). now repeat split.
  - rewrite (saveConfig_insert_path restaurantId store updates (hook b) rid cfg)
      by assumption.
    destruct (store _) as [|[row|]]; cbn.
    + repeat split; [lia | |].
      * intros op Hop. apply list_elem_of_singleton in Hop as ->.
        exists cfg. split; [exact Hcfg | right; now exists rid].
      * left. repeat split. intros Hin.
        now apply list_elem_of_singleton in Hin.
    + repeat split; [lia | |].
      * intros op Hop. apply list_elem_of_singleton in Hop as ->.
        exists cfg. split; [exact Hcfg | right; now exists rid].
      * right. exists cfg, (<["id" := read row "id"]> (spread cfg updates)).
        repeat split; try assumption; try discriminate.
        intros k Hk. now apply lookup_insert_ne.
    + repeat split; [lia | |].
      * intros op Hop. apply list_elem_of_singleton in Hop as ->.
        exists cfg. split; [exact Hcfg | right; now exists rid].
      * left. repeat split. intros Hin.
        now apply list_elem_of_singleton in Hin.
Qed.


Lemma save_outcome_flag (updates : gmap string value) (b : BuilderState)
    (r : BuilderState * list Event) (flag : bool) :
  save_outcome restaurantId updates b r ->
  updates !! "is_published" = Some (VBool flag) ->
  (forall op, op ∈ store_ops r.2 ->
     is_update_or_insert op = true
     /\ payload op !! "is_published" = Some (VBool flag))
  /\ ((config (hook r.1) = config (hook b) /\ formData r.1 = formData b)
      \/ exists cfg',
           config (hook r.1) = Some cfg' /\ formData r.1 = cfg'
           /\ cfg' !! "is_published" = Some (VBool flag)).
Proof.
  intros (_ & _ & Hops & Hend) Hflag. split.
  - intros op Hop. destruct (Hops op Hop) as (cfg & _ & [-> | (rid & _ & ->)]).
    + now split.
    + split; [reflexivity|]. cbn [payload].
      rewrite lookup_insert_ne by discriminate.
      now apply spread_lookup_updated.
  - destruct Hend as [(Hc & Hf & _) | (cfg & cfg' & _ & Hc & Hf & _ & _ & Hk)].
    + now left.
    + right. exists cfg'. repeat split; try assumption.
      rewrite Hk by discriminate. now apply spread_lookup_updated.
Qed.

Lemma generateSubdomain_trace (name : string) (rest : list Event) :
  store_ops ((generateSubdomain name).1 ++ rest) = store_ops rest
  /\ rpc_calls ((generateSubdomain name).1 ++ rest) = name :: rpc_calls rest
  /\ toasts ((generateSubdomain name).1 ++ rest) = toasts rest.
Proof. unfold WebsiteBuilder.generateSubdomain. now destruct (rpc name). Qed.

(** How [handleTogglePublish] goes, by the three conditions it tests. *)
Lemma handleTogglePublish_paths (b : BuilderState) :
  (shown_as_published b = true
   /\ handleTogglePublish b
      = after_save b (saveConfig {[ "is_published" := VBool false ]} (hook b)))
  \/ (shown_as_published b = false
      /\ truthy (formData b !! "subdomain") = true
      /\ handleTogglePublish b
         = after_save b (saveConfig {[ "is_published" := VBool true ]} (hook b)))
  \/ (shown_as_published b = false
      /\ truthy (formData b !! "subdomain") = false
      /\ truthy (Some (generateSubdomain restaurantName).2) = false
      /\ handleTogglePublish b
         = preceded_by (generateSubdomain restaurantName).1
             (after_save b
                (saveConfig {[ "is_published" := VBool true ]} (hook b))))
  \/ (shown_as_published b = false
      /\ truthy (formData b !! "subdomain") = false
      /\ truthy (Some (generateSubdomain restaurantName).2) = true
      /\ handleTogglePublish b
         = preceded_by (generateSubdomain restaurantName).1
             (after_save b
                (saveConfig
                   (<["is_published" := VBool true]>
                      (<["subdomain" := (generateSubdomain restaurantName).2]>
                         (formData b)))
                   (hook b)))).
Proof.
  unfold WebsiteBuilder.handleTogglePublish.
  destruct (shown_as_published b); [now left|].
  destruct (truthy (formData b !! "subdomain")) eqn:Hsub; cbn [negb].
  - right; left. now repeat split.
  - destruct (generateSubdomain restaurantName) as [called subdomain] eqn:Hgen.
    cbn [fst snd].
    destruct (truthy (Some subdomain)) eqn:Hgot.
    + right; right; right. now repeat split.
    + right; right; left. now repeat split.
Qed.

Lemma rpc_calls_cons (name : string) (rest : list Event) :
  rpc_calls (RpcCalled name :: rest) = name :: rpc_calls rest.
Proof. reflexivity. Qed.

Lemma preceded_by_nothing (r : BuilderState * list Event) : preceded_by [] r = r.
Proof. now destruct r. Qed.

Lemma handleTogglePublish_save (b : BuilderState) :
  exists updates called,
    handleTogglePublish b
    = preceded_by called (after_save b (saveConfig updates (hook b)))
    /\ updates !! "is_published" = Some (VBool (negb (shown_as_published b)))
    /\ (called = []
        \/ called = (generateSubdomain restaurantName).1
           /\ shown_as_published b = false
           /\ truthy (formData b !! "subdomain") = false).
Proof.
  destruct (handleTogglePublish_paths b)
    as [(Hpub & ->) | [(Hpub & Hsub & ->) | [(Hpub & Hsub & Hgot & ->)
                                            | (Hpub & Hsub & Hgot & ->)]]];
    rewrite Hpub; cbn [negb].
  - exists {[ "is_published" := VBool false ]}, [].
    split; [now rewrite preceded_by_nothing|].
    split; [apply lookup_singleton_eq | now left].
  - exists {[ "is_published" := VBool true ]}, [].
    split; [now rewrite preceded_by_nothing|].
    split; [apply lookup_singleton_eq | now left].
  - eexists _, _. split; [reflexivity|]. split; [apply lookup_singleton_eq|].
    now right.
  - eexists _, _. split; [reflexivity|]. split; [apply lookup_insert_eq|].
    now right.
Qed.

(** Toggling publication sends at most one request to the store, never a
    delete: an update or an insert whose payload sets [is_published] to
    the opposite of what the loaded configuration says.  The remote
    function is called at most once, for the restaurant's name, and only
    when the configuration is not published and the form has no
    subdomain.  Afterwards either neither the configuration nor the form
    has changed, or both are the same object, with the flag flipped. *)
Theorem toggle_publish_outcome (b : BuilderState) :
  (length (store_ops (handleTogglePublish b).2) <= 1)%nat
  /\ (forall op, op ∈ store_ops (handleTogglePublish b).2 ->
        is_update_or_insert op = true
        /\ is_delete op = false
        /\ payload op !! "is_published"
           = Some (VBool (negb (shown_as_published b))))
  /\ (rpc_calls (handleTogglePublish b).2 = []
      \/ rpc_calls (handleTogglePublish b).2 = [restaurantName]
         /\ shown_as_published b = false
         /\ truthy (formData b !! "subdomain") = false)
  /\ ((config (hook (handleTogglePublish b).1) = config (hook b)
       /\ formData (handleTogglePublish b).1 = formData b)
      \/ exists cfg',
           config (hook (handleTogglePublish b).1) = Some cfg'
           /\ formData (handleTogglePublish b).1 = cfg'
           /\ cfg' !! "is_published"
              = Some (VBool (negb (shown_as_published b)))).
Proof.
  destruct (handleTogglePublish_save b) as (updates & called & -> & Hflag & Hcalled).
  pose proof (after_save_outcome updates b) as Hout.
  destruct (save_outcome_flag updates b _ _ Hout Hflag) as (Hops & Hend).
  destruct Hout as (Hrpc & Hlen & _).
  unfold preceded_by; cbn [fst snd].
  assert (store_ops (called ++ (after_save b (saveConfig updates (hook b))).2)
          = store_ops (after_save b (saveConfig updates (hook b))).2) as ->.
  { destruct Hcalled as [-> | (-> & _)]; [reflexivity|].
    apply generateSubdomain_trace. }
  split; [exact Hlen|]. split; [|split; [|exact Hend]].
  - intros op Hop. destruct (Hops op Hop) as (Hkind & Hpayload).
    split; [exact Hkind|]. split; [|exact Hpayload]. now destruct op.
  - destruct Hcalled as [-> | (-> & Hpub & Hsub)].
    + left. exact Hrpc.
    + right. split; [|now split].
      destruct (generateSubdomain_trace restaurantName
                  (after_save b (saveConfig updates (hook b))).2)
        as (_ & -> & _).
      now rewrite Hrpc.
Qed.

(** What becomes of the edits of the form that were not saved.  When
    toggling changes anything, the form is overwritten by the new
    configuration.  If the toggle went through [publishWebsite] or
    [unpublishWebsite], every field but [is_published] (and [id]) of the
    form is then the loaded configuration's: the edits are gone.  If it
    went through the generated subdomain, the form's fields were saved
    with it. *)
Theorem toggle_publish_and_unsaved_edits (b : BuilderState) :
  (config (hook (handleTogglePublish b).1) = config (hook b)
   /\ formData (handleTogglePublish b).1 = formData b)
  \/ (exists cfg,
        config (hook b) = Some cfg
        /\ (shown_as_published b = true
            \/ truthy (formData b !! "subdomain") = true
            \/ truthy (Some (generateSubdomain restaurantName).2) = false)
        /\ forall k, k <> "id" -> k <> "is_published" ->
             formData (handleTogglePublish b).1 !! k = cfg !! k)
  \/ (exists cfg,
        config (hook b) = Some cfg
        /\ shown_as_published b = false
        /\ truthy (formData b !! "subdomain") = false
        /\ truthy (Some (generateSubdomain restaurantName).2) = true
        /\ formData (handleTogglePublish b).1 !! "subdomain"
           = Some (generateSubdomain restaurantName).2
        /\ forall k, k <> "id" -> k <> "is_published" -> k <> "subdomain" ->
             formData (handleTogglePublish b).1 !! k
             = spread cfg (formData b) !! k).
Proof.
  assert (forall flag r,
            save_outcome restaurantId {[ "is_published" := VBool flag ]} b r ->
            (config (hook r.1) = config (hook b) /\ formData r.1 = formData b)
            \/ exists cfg,
                 config (hook b) = Some cfg
                 /\ forall k, k <> "id" -> k <> "is_published" ->
                      formData r.1 !! k = cfg !! k) as Hflag.
  { intros flag r
      (_ & _ & _ & [(Hc & Hf & _) | (cfg & cfg' & Hcfg & _ & Hf & _ & _ & Hk)]).
    - now left.
    - right. exists cfg. split; [exact Hcfg|].
      intros k Hid Hnot. rewrite Hf, Hk by exact Hid.
      apply spread_lookup_kept. now apply lookup_singleton_ne. }
  destruct (handleTogglePublish_paths b)
    as [(Hpub & ->) | [(Hpub & Hsub & ->) | [(Hpub & Hsub & Hgot & ->)
                                            | (Hpub & Hsub & Hgot & ->)]]].
  - destruct (Hflag false _ (after_save_outcome _ b)) as [Hsame | (cfg & Hcfg & Hk)];
      [now left|].
    right; left. exists cfg. split; [exact Hcfg|]. split; [now left | exact Hk].
  - destruct (Hflag true _ (after_save_outcome _ b)) as [Hsame | (cfg & Hcfg & Hk)];
      [now left|].
    right; left. exists cfg. split; [exact Hcfg|].
    split; [right; now left | exact Hk].
  - unfold preceded_by; cbn [fst snd].
    destruct (Hflag true _ (after_save_outcome _ b)) as [Hsame | (cfg & Hcfg & Hk)];
      [now left|].
    right; left. exists cfg. split; [exact Hcfg|].
    split; [right; now right | exact Hk].
  - unfold preceded_by; cbn [fst snd].
    set (updates := <["is_published" := VBool true]>
                      (<["subdomain" := (generateSubdomain restaurantName).2]>
                         (formData b))).
    destruct (after_save_outcome updates b)
      as (_ & _ & _ & [(Hc & Hf & _) | (cfg & cfg' & Hcfg & _ & Hf & _ & _ & Hk)]).
    + now left.
    + right; right. exists cfg. repeat split; try assumption.
      * rewrite Hf, Hk by discriminate. apply spread_lookup_updated.
        unfold updates. rewrite lookup_insert_ne by discriminate.
        apply lookup_insert_eq.
      * intros k Hid Hnot Hsubk. rewrite Hf, Hk by exact Hid.
        unfold spread, updates.
        destruct (formData b !! k) as [v|] eqn:Hv.
        -- rewrite (lookup_union_Some_l _ _ k v); [|now rewrite !lookup_insert_ne].
           now rewrite (lookup_union_Some_l _ _ k v).
        -- rewrite !lookup_union_r; trivial.
           now rewrite !lookup_insert_ne.
Qed.

Lemma edited_hook (edits : list (string * value)) (b : BuilderState) :
  hook (edited edits b) = hook b.
Proof.
  unfold edited. revert b. induction edits as [|e edits IH]; intros b;
    [reflexivity|]. cbn [fold_left]. now rewrite IH.
Qed.

Lemma edited_covers (edits : list (string * value)) (b : BuilderState)
    (k : string) :
  formData (edited edits b) !! k = None -> formData b !! k = None.
Proof.
  unfold edited. revert b. induction edits as [|e edits IH]; intros b;
    [trivial|]. cbn [fold_left]. intros H. apply IH in H. cbn in H.
  destruct (decide (e.1 = k)) as [<- | Hne].
  - now rewrite lookup_insert_eq in H.
  - now rewrite lookup_insert_ne in H.
Qed.

Lemma spread_covered (cfg form : gmap string value) (k : string) :
  (form !! k = None -> cfg !! k = None) ->
  spread cfg form !! k = form !! k.
Proof.
  intros Hcov. unfold spread. destruct (form !! k) as [v|] eqn:Hv.
  - now apply lookup_union_Some_l.
  - rewrite lookup_union_r by exact Hv. now apply Hcov.
Qed.

(** Saving the form.  The form starts as the loaded configuration and is
    changed field by field, so it has every field of the configuration.
    The request sent carries the whole form, every field of it and not
    only the edited ones (under the hook's restaurant id, on an insert).
    Afterwards either nothing has changed, or the configuration is the
    form as it was saved (with the new row's [id] after an insert) and the
    form is that configuration. *)
Theorem handleSave_sends_whole_form (st : HookState)
    (edits : list (string * value)) :
  (length (store_ops (handleSave (edited edits (form_of st))).2) <= 1)%nat
  /\ (forall op, op ∈ store_ops (handleSave (edited edits (form_of st))).2 ->
        is_update_or_insert op = true
        /\ forall k, k <> "restaurant_id" ->
             payload op !! k = formData (edited edits (form_of st)) !! k)
  /\ ((config (hook (handleSave (edited edits (form_of st))).1) = config st
       /\ formData (handleSave (edited edits (form_of st))).1
          = formData (edited edits (form_of st)))
      \/ exists cfg',
           config (hook (handleSave (edited edits (form_of st))).1) = Some cfg'
           /\ formData (handleSave (edited edits (form_of st))).1 = cfg'
           /\ forall k, k <> "id" ->
                cfg' !! k = formData (edited edits (form_of st)) !! k).
Proof.
  set (b := edited edits (form_of st)).
  assert (hook b = st) as Hhook by apply edited_hook.
  assert (forall cfg k, config st = Some cfg ->
            formData b !! k = None -> cfg !! k = None) as Hcov.
  { intros cfg k Hcfg Hk. apply edited_covers in Hk.
    unfold form_of in Hk. cbn in Hk. now rewrite Hcfg in Hk. }
  unfold WebsiteBuilder.handleSave.
  rewrite Hhook.
  destruct (after_save_outcome (formData b) b) as (_ & Hlen & Hops & Hend).
  rewrite Hhook in Hlen.
  split; [exact Hlen|]. split.
  - intros op Hop. rewrite <- Hhook in Hop.
    destruct (Hops op Hop) as (cfg & Hcfg & [-> | (rid & _ & ->)]);
      rewrite Hhook in Hcfg;
      (split; [reflexivity|]); intros k Hk; cbn [payload].
    + reflexivity.
    + rewrite lookup_insert_ne by congruence.
      apply spread_covered, (Hcov cfg k Hcfg).
  - rewrite Hhook in Hend.
    destruct Hend as [(Hc & Hf & _) | (cfg & cfg' & Hcfg & Hc & Hf & _ & _ & Hk)].
    + now left.
    + right. exists cfg'. split; [exact Hc|]. split; [exact Hf|].
      intros k Hid. rewrite Hk by exact Hid.
      apply spread_covered, (Hcov cfg k Hcfg).
Qed.

End BuilderFacts.

(** ** A first publication, from the form down to the SQL function *)

Section FirstPublishFacts.
Import WebsiteHook WebsiteBuilder PublicSite Subdomain.

Variable restaurantId : option string.
Variable restaurantName : string.
Variable store : StoreOp -> StoreReply.
Variable unaccent : string -> string.

(** Publishing from a form without a subdomain, when the remote function
    is [generate_website_subdomain] on a table that its counter can number.
    The function is called once and returns a slug that no row has.  When
    that slug is not empty, the request to the store carries it as the
    subdomain, together with [is_published = true], and a successful save
    leaves it in the form.  When it is empty (the name has no lower-case
    letter or digit, and no row has the empty subdomain) it is dropped:
    the request is the one of [publishWebsite], which sets [is_published]
    alone. *)
Theorem first_publish_takes_free_subdomain (db : database) (b : BuilderState) :
  Z.of_nat (length (restaurant_websites db)) < 2147483647 ->
  shown_as_published b = false ->
  truthy (formData b !! "subdomain") = false ->
  exists slug,
    generate_website_subdomain unaccent (length (restaurant_websites db)) db
      restaurantName = Returned slug
    /\ (forall rw, rw ∈ restaurant_websites db -> rw_subdomain rw <> Some slug)
    /\ rpc_calls (handleTogglePublish restaurantId restaurantName store
                    (sql_rpc unaccent db) b).2 = [restaurantName]
    /\ (slug <> "" ->
          (forall op,
             op ∈ store_ops (handleTogglePublish restaurantId restaurantName
                               store (sql_rpc unaccent db) b).2 ->
             payload op !! "subdomain" = Some (VStr slug)
             /\ payload op !! "is_published" = Some (VBool true))
          /\ ("Sauvegardé" ∈ toasts (handleTogglePublish restaurantId
                                       restaurantName store
                                       (sql_rpc unaccent db) b).2 ->
              formData (handleTogglePublish restaurantId restaurantName store
                          (sql_rpc unaccent db) b).1 !! "subdomain"
              = Some (VStr slug)))
    /\ (slug = "" ->
          handleTogglePublish restaurantId restaurantName store
            (sql_rpc unaccent db) b
          = preceded_by [RpcCalled restaurantName]
              (after_save b (publishWebsite restaurantId store (hook b)))).
Proof.
  intros Hsmall Hpub Hsub.
  destruct (generate_website_subdomain_returns unaccent db restaurantName Hsmall)
    as (slug & k & Hrun & _ & _ & Hfree & _).
  pose proof (free_subdomain_rows db slug Hfree) as Hrows.
  exists slug. split; [exact Hrun|]. split; [exact Hrows|].
  assert (generateSubdomain (sql_rpc unaccent db) restaurantName
          = ([RpcCalled restaurantName], VStr slug)) as Hgen.
  { unfold generateSubdomain, sql_rpc. now rewrite Hrun. }
  destruct (handleTogglePublish_paths restaurantId restaurantName store
              (sql_rpc unaccent db) b)
    as [(Habs & _) | [(_ & Habs & _) | [(_ & _ & Hgot & ->)
                                       | (_ & _ & Hgot & ->)]]];
    [congruence | congruence | |]; rewrite Hgen in *; cbn [fst snd] in *.
  - (* the slug is empty *)
    assert (slug = "") as ->.
    { cbn in Hgot. now destruct (String.eqb_spec slug ""). }
    pose proof (after_save_outcome restaurantId store
                  {[ "is_published" := VBool true ]} b) as (Hrpc & _).
    unfold preceded_by; cbn [fst snd app]. rewrite rpc_calls_cons, Hrpc.
    split; [reflexivity|]. split; [now intros []|]. reflexivity.
  - (* the slug is used *)
    set (updates := <["is_published" := VBool true]>
                      (<["subdomain" := VStr slug]> (formData b))).
    pose proof (after_save_outcome restaurantId store updates b)
      as (Hrpc & _ & Hops & Hend).
    unfold preceded_by; cbn [fst snd app]. rewrite rpc_calls_cons, Hrpc.
    split; [reflexivity|]. split.
    + intros _. split.
      * intros op Hop.
        change (op ∈ store_ops (after_save b
                  (saveConfig restaurantId store updates (hook b))).2) in Hop.
        assert (updates !! "subdomain" = Some (VStr slug)) as Hu1.
        { unfold updates. rewrite lookup_insert_ne by discriminate.
          apply lookup_insert_eq. }
        assert (updates !! "is_published" = Some (VBool true)) as Hu2
          by apply lookup_insert_eq.
        destruct (Hops op Hop) as (cfg & _ & [-> | (rid & _ & ->)]);
          cbn [payload]; [now split|].
        rewrite !lookup_insert_ne by discriminate.
        split; now apply spread_lookup_updated.
      * intros Htoast.
        change ("Sauvegardé" ∈ toasts (after_save b
                  (saveConfig restaurantId store updates (hook b))).2) in Htoast.
        destruct Hend as [(_ & _ & Hno) | (cfg & cfg' & _ & _ & -> & _ & _ & Hk)];
          [contradiction|].
        rewrite Hk by discriminate. apply spread_lookup_updated.
        unfold updates. rewrite lookup_insert_ne by discriminate.
        apply lookup_insert_eq.
    + intros ->. cbn in Hgot. discriminate.
Qed.

End FirstPublishFacts.

Lemma first_publish_takes_free_subdomain_witness :
  Z.of_nat (length (PublicSite.restaurant_websites Subdomain.two_sites))
  < 2147483647
  /\ WebsiteBuilder.shown_as_published WebsiteBuilder.fresh_form = false
  /\ WebsiteHook.truthy
       (WebsiteBuilder.formData WebsiteBuilder.fresh_form !! "subdomain") = false
  /\ exists slug,
       Subdomain.generate_website_subdomain Subdomain.no_accents
         (length (PublicSite.restaurant_websites Subdomain.two_sites))
         Subdomain.two_sites "Chez Marie" = Subdomain.Returned slug
       /\ slug = "hez-arie-1"
       /\ WebsiteBuilder.rpc_calls
            (WebsiteBuilder.handleTogglePublish (Some "r-1") "Chez Marie"
               WebsiteHook.accepting_store
               (WebsiteBuilder.sql_rpc Subdomain.no_accents Subdomain.two_sites)
               WebsiteBuilder.fresh_form).2 = ["Chez Marie"].
Proof.
  assert (Z.of_nat (length (PublicSite.restaurant_websites Subdomain.two_sites))
          < 2147483647) as Hsmall by (simpl; lia).
  assert (WebsiteBuilder.shown_as_published WebsiteBuilder.fresh_form = false)
    as Hpub by reflexivity.
  assert (WebsiteHook.truthy
            (WebsiteBuilder.formData WebsiteBuilder.fresh_form !! "subdomain")
          = false) as Hsub by reflexivity.
  split; [exact Hsmall|]. split; [exact Hpub|]. split; [exact Hsub|].
  destruct (first_publish_takes_free_subdomain (Some "r-1") "Chez Marie"
              WebsiteHook.accepting_store Subdomain.no_accents
              Subdomain.two_sites WebsiteBuilder.fresh_form Hsmall Hpub Hsub)
    as (slug & Hrun & _ & Hcalls & _).
  exists slug. split; [exact Hrun|]. split; [|exact Hcalls].
  vm_compute in Hrun. now injection Hrun as <-.
Defined.

(** ** The hook over time *)

Section SessionFacts.
Import WebsiteHook HookSession.

Variable restaurantId : option string.

#[local] Abbreviation call := (call restaurantId).
#[local] Abbreviation run := (run restaurantId).
#[local] Abbreviation own_request := (own_request restaurantId).

Lemma saveConfig_step (store : StoreOp -> StoreReply)
    (updates : gmap string value) (st : HookState) :
  saving st = false ->
  saving (saveConfig restaurantId store updates st).1.1 = false
  /\ loading (saveConfig restaurantId store updates st).1.1 = loading st
  /\ Forall own_request (sent (saveConfig restaurantId store updates st).1.2)
  /\ (no_restaurant restaurantId = true ->
        (saveConfig restaurantId store updates st).1 = (st, [])).
Proof.
  intros Hsaving.
  destruct (saveConfig_paths restaurantId updates st)
    as [Hguard | (rid & cfg & Hrid & Hne & Hcfg)].
  { rewrite saveConfig_guard_path by exact Hguard. cbn.
    repeat split; [exact Hsaving | constructor]. }
  assert (no_restaurant restaurantId = false) as Hsome.
  { rewrite Hrid. cbn. now apply String.eqb_neq. }
  destruct (truthy (cfg !! "id")) eqn:Hid.
  - rewrite (saveConfig_update_path restaurantId store updates st rid cfg)
      by assumption.
    assert (own_request (Update updates (read cfg "id"))) as Hown.
    { exists rid. repeat split; try assumption. right; left.
      exists updates, (read cfg "id"). split; [reflexivity|].
      unfold read. now destruct (cfg !! "id"). }
    destruct (store _); cbn; repeat split;
      try (repeat constructor; exact Hown); congruence.
  - rewrite (saveConfig_insert_path restaurantId store updates st rid cfg)
      by assumption.
    assert (own_request (InsertSelectSingle
              (<["restaurant_id" := VStr rid]> (spread cfg updates)))) as Hown.
    { exists rid. repeat split; try assumption. right; right.
      eexists. split; [reflexivity | apply lookup_insert_eq]. }
    destruct (store _) as [|[row|]]; cbn; repeat split;
      try (repeat constructor; exact Hown); congruence.
Qed.

Lemma loadWebsiteConfig_step (store : StoreOp -> StoreReply) (st : HookState) :
  saving (loadWebsiteConfig restaurantId store st).1 = saving st
  /\ loading (loadWebsiteConfig restaurantId store st).1
     = (no_restaurant restaurantId && loading st)
  /\ Forall own_request (sent (loadWebsiteConfig restaurantId store st).2)
  /\ (no_restaurant restaurantId = true ->
        loadWebsiteConfig restaurantId store st = (st, [])).
Proof.
  unfold loadWebsiteConfig, no_restaurant.
  destruct restaurantId as [rid|] eqn:Hrid; [|repeat split; constructor].
  destruct (String.eqb_spec rid "") as [Hempty | Hne];
    [repeat split; constructor|].
  assert (HookSession.own_request (Some rid) (SelectMaybeSingle rid)) as Hown.
  { exists rid. repeat split; try assumption. now left. }
  destruct (store _) as [|[row|]]; cbn; repeat split;
    try (repeat constructor; exact Hown); discriminate.
Qed.

Lemma call_step (store : StoreOp -> StoreReply) (c : Call) (st : HookState) :
  saving st = false ->
  saving (call store c st).1 = false
  /\ loading (call store c st).1
     = ((no_restaurant restaurantId || negb (is_reload c)) && loading st)
  /\ Forall own_request (sent (call store c st).2)
  /\ (no_restaurant restaurantId = true -> call store c st = (st, [])).
Proof.
  intros Hsaving. destruct c as [|updates| |]; cbn [HookSession.call is_reload negb].
  - destruct (loadWebsiteConfig_step store st) as (Hs & Hl & Hown & Hguard).
    rewrite orb_false_r. repeat split; try assumption. congruence.
  - destruct (saveConfig_step store updates st Hsaving) as (Hs & Hl & Hown & Hguard).
    rewrite orb_true_r. now repeat split.
  - destruct (saveConfig_step store {[ "is_published" := VBool true ]} st Hsaving)
      as (Hs & Hl & Hown & Hguard).
    rewrite orb_true_r. now repeat split.
  - destruct (saveConfig_step store {[ "is_published" := VBool false ]} st Hsaving)
      as (Hs & Hl & Hown & Hguard).
    rewrite orb_true_r. now repeat split.
Qed.

Lemma sent_app (a b : list Event) : sent (a ++ b) = sent a ++ sent b.
Proof. unfold sent. apply omap_app. Qed.

Lemma run_invariants (steps : list ((StoreOp -> StoreReply) * Call))
    (st : HookState) :
  saving st = false ->
  saving (run steps st).1 = false
  /\ loading (run steps st).1
     = ((no_restaurant restaurantId
         || negb (existsb (fun step => is_reload step.2) steps))
        && loading st)
  /\ Forall own_request (sent (run steps st).2)
  /\ (no_restaurant restaurantId = true -> run steps st = (st, [])).
Proof.
  revert st. induction steps as [|[store c] steps IH]; intros st Hsaving.
  - cbn. rewrite orb_true_r. repeat split; [exact Hsaving | constructor].
  - cbn [HookSession.run existsb fst snd].
    destruct (call_step store c st Hsaving) as (Hs & Hl & Hown & Hguard).
    destruct (IH (call store c st).1 Hs) as (Hs' & Hl' & Hown' & Hguard').
    split; [exact Hs'|]. split; [|split].
    + rewrite Hl', Hl.
      destruct (no_restaurant restaurantId), (is_reload c),
        (existsb _ steps), (loading st); reflexivity.
    + rewrite sent_app. apply Forall_app. now split.
    + intros Hnone. rewrite (Hguard' Hnone). cbn [fst snd].
      now rewrite (Hguard Hnone).
Qed.

(** Whatever is called on the hook from its first state, in whatever
    order and whatever the store answers: every request it sends is the
    select of its restaurant's row, an update against a truthy id, or an
    insert under its restaurant's id, never a delete or an upsert;
    [saving] is false again after every call; [loading] is true until the
    first load and false from then on.  Without a restaurant id the hook
    sends nothing and stays in its first state, [loading] still true. *)
Theorem session_invariants (steps : list ((StoreOp -> StoreReply) * Call)) :
  Forall own_request (sent (run steps initial).2)
  /\ Forall (fun op => is_delete op = false) (sent (run steps initial).2)
  /\ saving (run steps initial).1 = false
  /\ loading (run steps initial).1
     = (no_restaurant restaurantId
        || negb (existsb (fun step => is_reload step.2) steps))
  /\ (no_restaurant restaurantId = true -> run steps initial = (initial, [])).
Proof.
  destruct (run_invariants steps initial eq_refl) as (Hs & Hl & Hown & Hguard).
  split; [exact Hown|]. split; [|split; [exact Hs|split; [|exact Hguard]]].
  - eapply Forall_impl; [exact Hown|].
    intros op (rid & _ & _ & [-> | [(u & i & -> & _) | (row & -> & _)]]);
      reflexivity.
  - rewrite Hl. cbn [loading initial]. apply andb_true_r.
Qed.

(** From mount to the second save.  When the store has no row for the
    restaurant, the load installs the default configuration; the first
    save then inserts, and if the store answers with a row whose [id] is
    truthy, the next save is an update against that id and not a second
    insert, whatever the store answers then.  Three requests are sent in
    all. *)
Theorem first_save_then_update (rid : string)
    (store0 store1 store2 : StoreOp -> StoreReply)
    (updates1 updates2 row : gmap string value) :
  restaurantId = Some rid -> rid <> "" ->
  store0 (SelectMaybeSingle rid) = Answered None ->
  store1 (InsertSelectSingle
            (<["restaurant_id" := VStr rid]>
               (spread (<["restaurant_id" := VStr rid]> defaultConfig) updates1)))
  = Answered (Some row) ->
  truthy (row !! "id") = true ->
  sent (run [(store0, Reload); (store1, Save updates1); (store2, Save updates2)]
          initial).2
  = [SelectMaybeSingle rid;
     InsertSelectSingle
       (<["restaurant_id" := VStr rid]>
          (spread (<["restaurant_id" := VStr rid]> defaultConfig) updates1));
     Update updates2 (read row "id")]
  /\ config (run [(store0, Reload); (store1, Save updates1)] initial).1
     = Some (<["id" := read row "id"]>
               (spread (<["restaurant_id" := VStr rid]> defaultConfig) updates1)).
Proof.
  intros Hrid Hne Hselect Hinsert Hid.
  set (cfg0 := <["restaurant_id" := VStr rid]> defaultConfig).
  assert (loadWebsiteConfig restaurantId store0 initial
          = (setLoading false (setConfig cfg0 (setLoading true initial)),
             [Sent (SelectMaybeSingle rid)])) as Hload.
  { unfold loadWebsiteConfig.
    now rewrite Hrid, (eqb_empty_false rid Hne), Hselect. }
  set (st1 := setLoading false (setConfig cfg0 (setLoading true initial))) in *.
  assert (truthy (cfg0 !! "id") = false) as Hnoid.
  { unfold cfg0. rewrite lookup_insert_ne by discriminate.
    now rewrite default_has_no_id. }
  pose proof (saveConfig_insert_path restaurantId store1 updates1 st1 rid cfg0
                Hrid Hne eq_refl Hnoid) as Hsave1.
  fold cfg0 in Hinsert. rewrite Hinsert in Hsave1.
  set (cfg1 := <["id" := read row "id"]> (spread cfg0 updates1)) in *.
  assert (truthy (cfg1 !! "id") = true) as Hhasid.
  { unfold cfg1. rewrite lookup_insert_eq. unfold read.
    now destruct (row !! "id"). }
  assert (read cfg1 "id" = read row "id") as Hread.
  { unfold read at 1, cfg1. now rewrite lookup_insert_eq. }
  set (st2 := (save_succeeded (setSaving true st1)
                 [Sent (InsertSelectSingle
                          (<["restaurant_id" := VStr rid]> (spread cfg0 updates1)))]
                 cfg1).1.1) in *.
  pose proof (saveConfig_update_path restaurantId store2 updates2 st2 rid cfg1
                Hrid Hne eq_refl Hhasid) as Hsave2.
  rewrite Hread in Hsave2.
  cbn [HookSession.run HookSession.call fst snd].
  rewrite Hload. cbn [fst snd]. rewrite Hsave1. cbn [fst snd].
  split; [|reflexivity].
  fold st2. rewrite Hsave2.
  now destruct (store2 _).
Qed.

End SessionFacts.

Lemma first_save_then_update_witness :
  WebsiteHook.sent
    (HookSession.run (Some "r-1")
       [(HookSession.empty_store, HookSession.Reload);
        (WebsiteHook.accepting_store,
         HookSession.Save {[ "hero_title" := VStr "Bienvenue" ]});
        (HookSession.empty_store,
         HookSession.Save {[ "is_published" := VBool true ]})]
       WebsiteHook.initial).2
  = [WebsiteHook.SelectMaybeSingle "r-1";
     WebsiteHook.InsertSelectSingle
       (<["restaurant_id" := VStr "r-1"]>
          (WebsiteHook.spread
             (<["restaurant_id" := VStr "r-1"]> WebsiteHook.defaultConfig)
             {[ "hero_title" := VStr "Bienvenue" ]}));
     WebsiteHook.Update {[ "is_published" := VBool true ]} (VStr "row-1")].
Proof.
  destruct (first_save_then_update (Some "r-1") "r-1"
              HookSession.empty_store WebsiteHook.accepting_store
              HookSession.empty_store
              {[ "hero_title" := VStr "Bienvenue" ]}
              {[ "is_published" := VBool true ]}
              (<["id" := VStr "row-1"]>
                 (<["restaurant_id" := VStr "r-1"]>
                    (WebsiteHook.spread
                       (<["restaurant_id" := VStr "r-1"]> WebsiteHook.defaultConfig)
                       {[ "hero_title" := VStr "Bienvenue" ]}))))
    as (Hsent & _).
  - reflexivity.
  - discriminate.
  - reflexivity.
  - reflexivity.
  - now rewrite lookup_insert_eq.
  - rewrite Hsent. unfold WebsiteHook.read. now rewrite lookup_insert_eq.
Defined.

(** ** What the public page shows *)

Section SitePageFacts.
Import WebsiteHook PublicSite SitePage.

(** On every page: a button that opens the reservation dialog is there
    only when both the site and the restaurant have reservations enabled,
    and then the navigation and the reservation section each have one (the
    hero has a third when its call to action is enabled).  The scroll
    buttons of the navigation for "about", "menu" and "contact" always
    have their section; the one for "gallery" has none when the gallery
    is enabled without images, and the arrow of the hero, which scrolls to
    "about", has none when that section is disabled. *)
Theorem page_outline_links (shown : WebsiteData) :
  reserve_buttons shown
  = (if reservations_open shown
     then (if config_flag shown "hero_cta_enabled" then 3 else 2)
     else 0)%nat
  /\ (forall t, t ∈ dead_targets shown ->
        t = "gallery" /\ config_flag shown "gallery_enabled" = true
                      /\ gallery_shown shown = false
        \/ t = "about" /\ config_flag shown "about_enabled" = false)
  /\ (config_flag shown "gallery_enabled" = true ->
      gallery_shown shown = false -> "gallery" ∈ dead_targets shown)
  /\ (config_flag shown "about_enabled" = false -> "about" ∈ dead_targets shown)
  /\ (has_section shown "reservations" = reservations_open shown).
Proof.
  unfold reserve_buttons, dead_targets, scroll_targets, has_section, outline,
    navigation, hero, reservations_open, gallery_shown.
  destruct (config_flag shown "about_enabled"),
    (config_flag shown "menu_enabled"),
    (config_flag shown "gallery_enabled"),
    (config_flag shown "contact_enabled"),
    (config_flag shown "hero_cta_enabled"),
    (config_flag shown "reservations_enabled"),
    (restaurant_flag shown "reservations_enabled"),
    (config_flag shown "gallery_images"),
    (has_items (rw_columns (website_config shown) !! "gallery_images"));
    cbn; (split; [reflexivity|]);
    (split; [intros t Ht; repeat (apply elem_of_cons in Ht as [-> | Ht]);
             try (now apply elem_of_nil in Ht); tauto|]);
    (split; [intros; try discriminate; repeat constructor|]);
    (split; [intros; try discriminate; repeat constructor|]);
    reflexivity.
Qed.

End SitePageFacts.
